(** * TemplateInstance migration (openshift_adm_migrate_template_instances)

    A shallow embedding of [perform_migrations] and [execute_module] of
    plugins/modules/openshift_adm_migrate_template_instances.py, with the
    Python values they traverse, the exceptions they can raise and the
    in-place update of the records they share with their result list. *)

From stdpp Require Import gmap strings list fin_maps.

Open Scope string_scope.
Open Scope list_scope.

(** ** Python values

    The documents handled by the module are what [to_dict()] returns: trees
    of dicts, lists, strings, integers, booleans and [None].  A dict is a
    finite map on string keys. *)

#[warnings="-register-all"]
Inductive value : Type :=
| VNone
| VBool (b : bool)
| VInt (n : Z)
| VStr (s : string)
| VList (l : list value)
| VDict (d : gmap string value).

(** ** Exceptions *)

Inductive exn : Type :=
| KeyError (k : value)
| IndexError
| TypeError
| AttributeError.

Inductive res (A : Type) : Type :=
| Ok (a : A)
| Raise (e : exn).

Arguments Ok {A} a.
Arguments Raise {A} e.

Definition bind {A B : Type} (m : res A) (k : A -> res B) : res B :=
  match m with
  | Ok a => k a
  | Raise e => Raise e
  end.

Notation "x <- m ;; k" := (bind m (fun x => k))
  (at level 100, m at next level, right associativity,
   format "x  <-  m  ;;  '/' k").

(** ** Primitive operations of the Python data model *)

Module Py.

(** [bool(v)] *)
Definition truthy (v : value) : bool :=
  match v with
  | VNone => false
  | VBool b => b
  | VInt n => negb (n =? 0)%Z
  | VStr s => negb (String.eqb s "")
  | VList l => match l with [] => false | _ => true end
  | VDict d => negb (bool_decide (d = ∅))
  end.

(** [v == "s"] for a string literal [s] *)
Definition eq_str (v : value) (s : string) : bool :=
  match v with
  | VStr t => String.eqb t s
  | _ => false
  end.

(** [v.get(k)]: only dicts have the method *)
Definition get (v : value) (k : string) : res value :=
  match v with
  | VDict d => Ok (default VNone (d !! k))
  | _ => Raise AttributeError
  end.

(** [v[k]] for a string key [k] *)
Definition getitem (v : value) (k : string) : res value :=
  match v with
  | VDict d => match d !! k with
               | Some x => Ok x
               | None => Raise (KeyError (VStr k))
               end
  | _ => Raise TypeError
  end.

(** [v[i]] for an integer index [i >= 0] *)
Definition index (v : value) (i : nat) : res value :=
  match v with
  | VList l => match l !! i with
               | Some x => Ok x
               | None => Raise IndexError
               end
  | VStr s => match String.get i s with
              | Some c => Ok (VStr (String c EmptyString))
              | None => Raise IndexError
              end
  | VDict _ => Raise (KeyError (VInt (Z.of_nat i)))
  | _ => Raise TypeError
  end.

(** [v[k] = x] for a string key [k], as the value [v] has afterwards *)
Definition setitem (v : value) (k : string) (x : value) : res value :=
  match v with
  | VDict d => Ok (VDict (<[k := x]> d))
  | _ => Raise TypeError
  end.

(** [v[i] = x] for an integer index [i >= 0] *)
Definition setindex (v : value) (i : nat) (x : value) : res value :=
  match v with
  | VList l => if decide (i < length l) then Ok (VList (<[i := x]> l))
               else Raise IndexError
  | _ => Raise TypeError
  end.

Fixpoint chars (s : string) : list value :=
  match s with
  | EmptyString => []
  | String c s' => VStr (String c EmptyString) :: chars s'
  end.

(** the elements [for x in v] visits *)
Definition iter (v : value) : res (list value) :=
  match v with
  | VList l => Ok l
  | VStr s => Ok (chars s)
  | VDict d => Ok (VStr <$> (map_to_list d).*1)
  | _ => Raise TypeError
  end.

End Py.

(** ** The module's table *)

Definition transforms : gmap string string :=
  list_to_map
    [ ("Build", "build.openshift.io/v1");
      ("BuildConfig", "build.openshift.io/v1");
      ("DeploymentConfig", "apps.openshift.io/v1");
      ("Route", "route.openshift.io/v1") ].

(** [object_type in transforms.keys()]: membership hashes its operand, so a
    list or a dict raises. *)
Definition in_transforms (object_type : value) : res bool :=
  match object_type with
  | VStr k => Ok (bool_decide (is_Some (transforms !! k)))
  | VList _ | VDict _ => Raise TypeError
  | _ => Ok false
  end.

(** [transforms[object_type]], evaluated only after the membership test *)
Definition transforms_at (object_type : value) : res string :=
  match object_type with
  | VStr k => match transforms !! k with
              | Some c => Ok c
              | None => Raise (KeyError object_type)
              end
  | VList _ | VDict _ => Raise TypeError
  | _ => Raise (KeyError object_type)
  end.

(** ** perform_migrations

    The records of [ti_list] are objects that the loop updates in place and
    that [ti_to_be_migrated] refers to.  The store [heap] holds the object
    behind each position of [ti_list]; [ti_to_be_migrated] is a list of
    references (positions) into it, so that two entries for one record are
    one object. *)

Record mstate : Type := MState {
  heap : list value;
  ti_to_be_migrated : list nat
}.

(** [ti_list = (templateinstances.get("kind") == "TemplateInstanceList"
                and templateinstances.get("items") or [templateinstances])] *)
Definition select_ti_list (templateinstances : value) : res value :=
  kind <- Py.get templateinstances "kind" ;;
  x <- (if Py.eq_str kind "TemplateInstanceList"
        then Py.get templateinstances "items"
        else Ok (VBool false)) ;;
  Ok (if Py.truthy x then x else VList [templateinstances]).

(** [ti_elem["status"]["objects"][i]["ref"]["apiVersion"] = c], as the object
    [ti_elem] reads afterwards: the inner objects are reached through it. *)
Definition store_apiVersion (ti_elem : value) (i : nat) (c : string) : res value :=
  status <- Py.getitem ti_elem "status" ;;
  objects <- Py.getitem status "objects" ;;
  obj <- Py.index objects i ;;
  ref <- Py.getitem obj "ref" ;;
  ref' <- Py.setitem ref "apiVersion" (VStr c) ;;
  obj' <- Py.setitem obj "ref" ref' ;;
  objects' <- Py.setindex objects i obj' ;;
  status' <- Py.setitem status "objects" objects' ;;
  Py.setitem ti_elem "status" status'.

(** One pass of the body of [for i, obj in enumerate(objects)] for the record
    at position [j].  The loop only passes positions of [ti_list], so the
    store always has an object at [j]. *)
Definition migrate_obj (j i : nat) (obj : value) (st : mstate) : res mstate :=
  ref <- Py.getitem obj "ref" ;;
  object_type <- Py.getitem ref "kind" ;;
  known <- in_transforms object_type ;;
  if known then
    ref2 <- Py.getitem obj "ref" ;;
    version <- Py.get ref2 "apiVersion" ;;
    c <- transforms_at object_type ;;
    if negb (Py.eq_str version c) then
      match heap st !! j with
      | Some ti_elem =>
          ti_elem' <- store_apiVersion ti_elem i c ;;
          Ok (MState (<[j := ti_elem']> (heap st)) (ti_to_be_migrated st ++ [j]))
      | None => Raise IndexError
      end
    else Ok st
  else Ok st.

(** [for i, obj in enumerate(objects)], from index [i] on.  The list is not
    resized by the loop and entry [i] is written only after it was read, so
    the entries visited are those the list had when the loop began. *)
Fixpoint migrate_objs (j i : nat) (objs : list value) (st : mstate) : res mstate :=
  match objs with
  | [] => Ok st
  | obj :: rest =>
      st' <- migrate_obj j i obj st ;;
      migrate_objs j (S i) rest st'
  end.

(** The body of [for ti_elem in ti_list] for the record at position [j]. *)
Definition migrate_elem (j : nat) (ti_elem : value) (st : mstate) : res mstate :=
  status <- Py.getitem ti_elem "status" ;;
  objects <- Py.get status "objects" ;;
  if Py.truthy objects then
    objs <- Py.iter objects ;;
    migrate_objs j 0 objs st
  else Ok st.

(** [for ti_elem in ti_list], from position [j] on. *)
Fixpoint migrate_elems (j : nat) (elems : list value) (st : mstate) : res mstate :=
  match elems with
  | [] => Ok st
  | ti_elem :: rest =>
      st' <- migrate_elem j ti_elem st ;;
      migrate_elems (S j) rest st'
  end.

Definition perform_migrations (templateinstances : value) : res mstate :=
  ti_list <- select_ti_list templateinstances ;;
  elems <- Py.iter ti_list ;;
  migrate_elems 0 elems (MState elems []).

(** The records the returned list shows to its reader. *)
Definition deref (st : mstate) : list value :=
  omap (fun j => heap st !! j) (ti_to_be_migrated st).

Definition migrated (templateinstances : value) : res (list value) :=
  st <- perform_migrations templateinstances ;;
  Ok (deref st).

(** ** Builders for concrete documents *)

Definition dict (kvs : list (string * value)) : value := VDict (list_to_map kvs).

Definition mk_ref (kind apiVersion : string) : value :=
  dict [("ref", dict [("apiVersion", VStr apiVersion); ("kind", VStr kind)])].

Definition mk_ti (objs : list value) : value :=
  dict [("status", dict [("objects", VList objs)])].

Definition mk_ti_list (items : list value) : value :=
  dict [("kind", VStr "TemplateInstanceList"); ("items", VList items)].

Definition ex_route_secret : value :=
  mk_ti [mk_ref "Route" "route.openshift.io/v1.Route"; mk_ref "Secret" "v1"].

Definition ex_two_stale : value :=
  mk_ti [mk_ref "Route" "route.openshift.io/v1.Route"; mk_ref "Build" "v1"].

(** ** What the loop does, record by record

    The reading of a record that the proofs compare the loop with: the
    entries of [status.objects], whether an entry is on a stale version, and
    the record once every stale entry was rewritten. *)

(** The canonical version an object reference is to be moved to, if any:
    its kind is a key of [transforms] and its [apiVersion] (or [None] when
    the key is absent) is not the value stored there. *)
Definition stale_to (ref : gmap string value) : option string :=
  match ref !! "kind" with
  | Some (VStr k) =>
      match transforms !! k with
      | Some c => if Py.eq_str (default VNone (ref !! "apiVersion")) c
                  then None else Some c
      | None => None
      end
  | _ => None
  end.

Definition ref_of (obj : value) : option (gmap string value) :=
  match obj with
  | VDict o => match o !! "ref" with
               | Some (VDict ref) => Some ref
               | _ => None
               end
  | _ => None
  end.

Definition is_stale (obj : value) : bool :=
  match ref_of obj with
  | Some ref => bool_decide (is_Some (stale_to ref))
  | None => false
  end.

Definition rewrite_ref (ref : gmap string value) : gmap string value :=
  match stale_to ref with
  | Some c => <["apiVersion" := VStr c]> ref
  | None => ref
  end.

Definition rewrite_obj (obj : value) : value :=
  match obj with
  | VDict o => match o !! "ref" with
               | Some (VDict ref) => VDict (<["ref" := VDict (rewrite_ref ref)]> o)
               | _ => obj
               end
  | _ => obj
  end.

(** The list behind [status.objects], when there is one. *)
Definition objects_of (ti_elem : value) : option (list value) :=
  match ti_elem with
  | VDict d => match d !! "status" with
               | Some (VDict s) => match s !! "objects" with
                                   | Some (VList l) => Some l
                                   | _ => None
                                   end
               | _ => None
               end
  | _ => None
  end.

Definition with_objects (d s : gmap string value) (l : list value) : value :=
  VDict (<["status" := VDict (<["objects" := VList l]> s)]> d).

Definition rewrite_record (ti_elem : value) : value :=
  match ti_elem with
  | VDict d => match d !! "status" with
               | Some (VDict s) => match s !! "objects" with
                                   | Some (VList l) => with_objects d s (rewrite_obj <$> l)
                                   | _ => ti_elem
                                   end
               | _ => ti_elem
               end
  | _ => ti_elem
  end.

Definition count_stale (ti_elem : value) : nat :=
  length (filter (fun obj => is_stale obj = true) (default [] (objects_of ti_elem))).

(** The references appended for the records [elems], which sit at positions
    [j], [j+1], ... of [ti_list]. *)
Fixpoint dirty_from (j : nat) (elems : list value) : list nat :=
  match elems with
  | [] => []
  | ti_elem :: rest => replicate (count_stale ti_elem) j ++ dirty_from (S j) rest
  end.

(** The entries and records on which the loop body raises nothing. *)
Definition obj_ok (obj : value) : bool :=
  match ref_of obj with
  | Some ref => match ref !! "kind" with
                | Some (VList _) | Some (VDict _) | None => false
                | Some _ => true
                end
  | None => false
  end.

Definition record_ok (ti_elem : value) : bool :=
  match ti_elem with
  | VDict d => match d !! "status" with
               | Some (VDict s) =>
                   match default VNone (s !! "objects") with
                   | VList l => forallb obj_ok l
                   | v => negb (Py.truthy v)
                   end
               | _ => false
               end
  | _ => false
  end.

(** The records [for ti_elem in ti_list] visits. *)
Definition ti_elems (templateinstances : value) : res (list value) :=
  ti_list <- select_ti_list templateinstances ;;
  Py.iter ti_list.

Definition is_raise {A : Type} (m : res A) : Prop := exists e, m = Raise e.

(** The reference of entry [i] of a record, and the input object as the
    in-place updates of a call leave it. *)
Definition ref_at (ti_elem : value) (i : nat) : option (gmap string value) :=
  l ← objects_of ti_elem; obj ← l !! i; ref_of obj.

Definition migrate_applied (templateinstances : value) (st : mstate) : value :=
  match templateinstances with
  | VDict d =>
      if Py.eq_str (default VNone (d !! "kind")) "TemplateInstanceList"
         && Py.truthy (default VNone (d !! "items"))
      then VDict (<["items" := VList (heap st)]> d)
      else default templateinstances (heap st !! 0)
  | _ => templateinstances
  end.

(** ** execute_module

    The cluster is reached through the resource client only: [resource.get]
    and [resource.status.patch], each returning a document or raising.  A
    run is the list of calls made, in order, and the way the module ends. *)

Module Exec.

Inductive api_error : Type :=
| DynamicApiError (body status reason : string)
| OtherError (msg : string).

Record client : Type := Client {
  (** [resource.get(namespace=ns).to_dict()], or [resource.get().to_dict()] *)
  resource_get : option string -> api_error + value;
  (** [resource.status.patch(ti).to_dict()] for call number [n] *)
  status_patch : nat -> value -> api_error + value
}.

Inductive event : Type :=
| EvGet (namespace : option string)
| EvPatch (templateinstance : value).

Inductive failure : Type :=
| FailedToRetrieve (namespace : string) (e : api_error)
| FailedToMigrate (name : value) (e : api_error).

Inductive outcome : Type :=
| ExitJson (changed : bool) (result : list value)
| FailJson (f : failure)
| Uncaught (e : exn)
| UncaughtApi (e : api_error).

(** [if namespace:] on the module parameter, a string or [None] *)
Definition namespace_given (namespace : option string) : bool :=
  match namespace with
  | Some ns => negb (String.eqb ns "")
  | None => false
  end.

(** [patch_template_instance(resource, templateinstance)]: the patched
    document, or the way the module ends. *)
Definition patch_template_instance (c : client) (n : nat) (templateinstance : value)
  : outcome + value :=
  match status_patch c n templateinstance with
  | inr result => inr result
  | inl exc =>
      match (metadata <- Py.getitem templateinstance "metadata" ;;
             Py.getitem metadata "name") with
      | Ok name => inl (FailJson (FailedToMigrate name exc))
      | Raise e => inl (Uncaught e)
      end
  end.

(** [for ti_elem in ti_to_be_migrated: results["result"].append(...)], from
    call number [n] on, with the calls made and the results gathered so far. *)
Fixpoint patch_all (c : client) (n : nat) (tis : list value)
    (trace : list event) (result : list value) : list event * outcome :=
  match tis with
  | [] => (trace, ExitJson true result)
  | ti_elem :: rest =>
      match patch_template_instance c n ti_elem with
      | inr r => patch_all c (S n) rest (trace ++ [EvPatch ti_elem]) (result ++ [r])
      | inl o => (trace ++ [EvPatch ti_elem], o)
      end
  end.

(** The module after [find_resource] returned the resource. *)
Definition execute_module (c : client) (namespace : option string) (check_mode : bool)
  : list event * outcome :=
  if namespace_given namespace then
    let ns := default "" namespace in
    match resource_get c (Some ns) with
    | inr _ => ([EvGet (Some ns)], ExitJson false [])
    | inl exc => ([EvGet (Some ns)], FailJson (FailedToRetrieve ns exc))
    end
  else
    match resource_get c None with
    | inl exc => ([EvGet None], UncaughtApi exc)
    | inr templateinstances =>
        match perform_migrations templateinstances with
        | Raise e => ([EvGet None], Uncaught e)
        | Ok st =>
            match ti_to_be_migrated st with
            | [] => ([EvGet None], ExitJson false [])
            | _ :: _ =>
                if check_mode then ([EvGet None], ExitJson true (deref st))
                else patch_all c 0 (deref st) [EvGet None] []
            end
        end
    end.

Definition is_patch (e : event) : bool :=
  match e with
  | EvPatch _ => true
  | EvGet _ => false
  end.

End Exec.

(** An object reference is stale when its kind is a key of [transforms] and
    its stored version is not the value stored there. *)
Definition stale_ref (ref : gmap string value) : Prop :=
  exists k c, ref !! "kind" = Some (VStr k) /\ transforms !! k = Some c
              /\ ref !! "apiVersion" <> Some (VStr c).

(** How often the record at position [j] occurs in a list of references. *)
Definition occurrences (j : nat) (out : list nat) : nat :=
  List.length (filter (fun x => x = j) out).

(** ** Documents used in the concrete runs *)

Definition ex_migrated_route_secret : value :=
  mk_ti [mk_ref "Route" "route.openshift.io/v1"; mk_ref "Secret" "v1"].

Definition ex_migrated_two_stale : value :=
  mk_ti [mk_ref "Route" "route.openshift.io/v1"; mk_ref "Build" "build.openshift.io/v1"].

Definition ex_route_ref : gmap string value :=
  list_to_map [("apiVersion", VStr "route.openshift.io/v1.Route"); ("kind", VStr "Route")].

Definition ex_secret_ref : gmap string value :=
  list_to_map [("apiVersion", VStr "v1"); ("kind", VStr "Secret")].

Definition ex_no_status : value :=
  dict [("metadata", dict [("name", VStr "ti")])].

Definition ex_no_kind : value :=
  mk_ti [dict [("ref", dict [("apiVersion", VStr "v1")])]].

Definition ex_no_objects : gmap string value :=
  list_to_map [("status", dict [])].

Definition ex_empty_list : gmap string value :=
  list_to_map [("kind", VStr "TemplateInstanceList"); ("items", VList [])].

(** A cluster that serves [templateinstances] and echoes every patch. *)
Definition ex_client (templateinstances : value) : Exec.client :=
  Exec.Client (fun _ => inr templateinstances) (fun _ ti => inr ti).

(** A list of three records: one already on the canonical versions, one
    with two stale references and one with one. *)
Definition ex_mixed : list value :=
  [ex_migrated_route_secret; ex_two_stale; ex_route_secret].

Definition ex_named (name : string) (objs : list value) : value :=
  dict [("metadata", dict [("name", VStr name)]);
        ("status", dict [("objects", VList objs)])].

(** A cluster that serves [templateinstances] and refuses every patch from
    call number [k] on. *)
Definition ex_failing_client (templateinstances : value) (k : nat) : Exec.client :=
  Exec.Client (fun _ => inr templateinstances)
              (fun n ti => if decide (n < k) then inr ti
                           else inl (Exec.OtherError "conflict")).

Definition ex_items_string : gmap string value :=
  list_to_map [("kind", VStr "TemplateInstanceList"); ("items", VStr "abc")].

Definition ex_no_ref : value := dict [("name", VStr "x")].

(** ** Lemmas on the loop *)

Section Loop.

Implicit Types (d s o ref : gmap string value) (l objs elems : list value).
Implicit Types (st : mstate) (obj ti_elem : value) (i j : nat).

Lemma store_apiVersion_with d s l i o ref c :
  l !! i = Some (VDict o) ->
  o !! "ref" = Some (VDict ref) ->
  store_apiVersion (with_objects d s l) i c
  = Ok (with_objects d s
          (<[i := VDict (<["ref" := VDict (<["apiVersion" := VStr c]> ref)]> o)]> l)).
Proof.
  intros Hi Href. unfold store_apiVersion, with_objects. simpl.
  rewrite lookup_insert_eq. simpl. rewrite lookup_insert_eq. simpl.
  rewrite Hi. simpl. rewrite Href. simpl.
  apply lookup_lt_Some in Hi. rewrite decide_True by done. simpl.
  by rewrite !insert_insert_eq.
Qed.

Lemma with_objects_id d s l :
  d !! "status" = Some (VDict s) -> s !! "objects" = Some (VList l) ->
  with_objects d s l = VDict d.
Proof.
  intros Hd Hs. unfold with_objects. by rewrite (insert_id s), (insert_id d).
Qed.

(** The body of the inner loop on an entry it accepts. *)
Lemma migrate_obj_ok j i obj st d s l :
  obj_ok obj = true ->
  heap st !! j = Some (with_objects d s l) ->
  l !! i = Some obj ->
  migrate_obj j i obj st
  = Ok (MState (<[j := with_objects d s (<[i := rewrite_obj obj]> l)]> (heap st))
               (ti_to_be_migrated st ++ (if is_stale obj then [j] else []))).
Proof.
  intros Hok Hj Hi. unfold obj_ok, is_stale, ref_of in *.
  destruct obj as [| | | | |o]; try done.
  destruct (o !! "ref") as [[| | | | |ref]|] eqn:Href; try done.
  assert (Hro : rewrite_obj (VDict o) = VDict (<["ref" := VDict (rewrite_ref ref)]> o))
    by (unfold rewrite_obj; by rewrite Href).
  rewrite Hro. clear Hro.
  assert (Hid : stale_to ref = None ->
    MState (<[j := with_objects d s
                     (<[i := VDict (<["ref" := VDict (rewrite_ref ref)]> o)]> l)]> (heap st))
           (ti_to_be_migrated st ++ []) = st).
  { intros Hn. unfold rewrite_ref. rewrite Hn.
    rewrite (insert_id o) by done. rewrite (list_insert_id l) by done.
    rewrite (list_insert_id (heap st)) by done. rewrite app_nil_r. by destruct st. }
  assert (Hnone : stale_to ref = None ->
    Ok st = Ok (MState (<[j := with_objects d s
                            (<[i := VDict (<["ref" := VDict (rewrite_ref ref)]> o)]> l)]>
                          (heap st))
                  (ti_to_be_migrated st
                   ++ (if bool_decide (is_Some (stale_to ref)) then [j] else [])))).
  { intros Hn. rewrite <- (Hid Hn) at 1. rewrite Hn.
    rewrite bool_decide_eq_false_2; [done|]. by intros []. }
  unfold migrate_obj. simpl. rewrite Href. simpl.
  destruct (ref !! "kind") as [[|b|n|k| |]|] eqn:Hk; try done; simpl;
    try (apply Hnone; unfold stale_to; by rewrite Hk).
  destruct (transforms !! k) as [c|] eqn:Hc.
  - rewrite bool_decide_eq_true_2 by eauto. simpl.
    destruct (Py.eq_str (default VNone (ref !! "apiVersion")) c) eqn:E; simpl.
    + apply Hnone. unfold stale_to. by rewrite Hk, Hc, E.
    + assert (Hs : stale_to ref = Some c) by (unfold stale_to; by rewrite Hk, Hc, E).
      rewrite Hj. rewrite (store_apiVersion_with _ _ _ _ _ _ _ Hi Href). simpl.
      rewrite Hs. rewrite bool_decide_eq_true_2 by eauto.
      unfold rewrite_ref. by rewrite Hs.
  - rewrite bool_decide_eq_false_2 by (by intros []).
    apply Hnone. unfold stale_to. by rewrite Hk, Hc.
Qed.

(** The body of the inner loop on an entry it does not accept. *)
Lemma migrate_obj_raise j i obj st :
  obj_ok obj = false -> is_raise (migrate_obj j i obj st).
Proof.
  intros Hok. unfold obj_ok, ref_of, migrate_obj in *.
  destruct obj as [| | | | |o]; simpl; try (eexists; reflexivity).
  destruct (o !! "ref") as [[| | | | |ref]|]; simpl; try (eexists; reflexivity).
  destruct (ref !! "kind") as [[| | | | |]|]; simpl; try done;
    eexists; reflexivity.
Qed.

Lemma is_raise_bind {A B : Type} (m : res A) (k : A -> res B) :
  is_raise m -> is_raise (bind m k).
Proof. intros [e ->]. by exists e. Qed.

Lemma is_raise_not_Ok {A : Type} (m : res A) (a : A) : is_raise m -> m <> Ok a.
Proof. intros [e ->]. discriminate. Qed.

Local Arguments rewrite_record : simpl never.
Local Arguments rewrite_obj : simpl never.
Local Arguments count_stale : simpl never.

(** The inner loop on the entries [todo] that follow the entries [pre]. *)
Lemma migrate_objs_ok j d s todo : forall pre st,
  heap st !! j = Some (with_objects d s (pre ++ todo)) ->
  forallb obj_ok todo = true ->
  migrate_objs j (List.length pre) todo st
  = Ok (MState (<[j := with_objects d s (pre ++ (rewrite_obj <$> todo))]> (heap st))
               (ti_to_be_migrated st
                ++ replicate (List.length (filter (fun obj => is_stale obj = true) todo)) j)).
Proof.
  induction todo as [|obj rest IH]; intros pre st Hj Hok; simpl.
  - rewrite (list_insert_id (heap st)) by done. rewrite app_nil_r. by destruct st.
  - apply andb_prop in Hok as [Hobj Hrest].
    rewrite (migrate_obj_ok j (List.length pre) obj st d s (pre ++ obj :: rest)); try done;
      [|by apply list_lookup_middle]. simpl.
    assert (Hlt : j < List.length (heap st)) by (by eapply lookup_lt_Some).
    replace (<[List.length pre := rewrite_obj obj]> (pre ++ obj :: rest))
      with ((pre ++ [rewrite_obj obj]) ++ rest)
      by (rewrite insert_app_r_alt, Nat.sub_diag by lia; simpl; by rewrite <- app_assoc).
    replace (S (List.length pre)) with (List.length (pre ++ [rewrite_obj obj]))
      by (rewrite length_app; simpl; lia).
    rewrite IH; simpl; [|by rewrite list_lookup_insert_eq|done].
    rewrite list_insert_insert_eq. rewrite <- !app_assoc. simpl.
    rewrite filter_cons. destruct (decide (is_stale obj = true)) as [E|E].
    + by rewrite E.
    + apply not_true_is_false in E. by rewrite E.
Qed.

Lemma migrate_objs_raise j todo : forall i st,
  forallb obj_ok todo = false -> is_raise (migrate_objs j i todo st).
Proof.
  induction todo as [|obj rest IH]; intros i st Hok; simpl in *; [done|].
  destruct (obj_ok obj) eqn:Hobj; simpl in Hok.
  - destruct (migrate_obj j i obj st) as [st'|e]; simpl; [by apply IH | by exists e].
  - by apply is_raise_bind, migrate_obj_raise.
Qed.

Lemma rewrite_record_objects d s l :
  d !! "status" = Some (VDict s) -> s !! "objects" = Some (VList l) ->
  rewrite_record (VDict d) = with_objects d s (rewrite_obj <$> l)
  /\ count_stale (VDict d) = List.length (filter (fun obj => is_stale obj = true) l).
Proof. intros Hd Hs. unfold rewrite_record, count_stale, objects_of. by rewrite Hd, Hs. Qed.

Lemma rewrite_record_no_objects d s :
  d !! "status" = Some (VDict s) ->
  (forall l, s !! "objects" <> Some (VList l)) ->
  rewrite_record (VDict d) = VDict d /\ count_stale (VDict d) = 0.
Proof.
  intros Hd Hs. unfold rewrite_record, count_stale, objects_of. rewrite Hd.
  destruct (s !! "objects") as [[| | | |l|]|]; try done. by destruct (Hs l).
Qed.

(** The body of the outer loop on a record it accepts. *)
Lemma migrate_elem_ok j ti_elem st :
  record_ok ti_elem = true ->
  heap st !! j = Some ti_elem ->
  migrate_elem j ti_elem st
  = Ok (MState (<[j := rewrite_record ti_elem]> (heap st))
               (ti_to_be_migrated st ++ replicate (count_stale ti_elem) j)).
Proof.
  intros Hok Hj. unfold record_ok, migrate_elem in *.
  destruct ti_elem as [| | | | |d]; try done. simpl.
  destruct (d !! "status") as [[| | | | |s]|] eqn:Hd; try done. simpl.
  assert (Hskip : (forall l, s !! "objects" <> Some (VList l)) ->
    Ok st = Ok (MState (<[j := rewrite_record (VDict d)]> (heap st))
                  (ti_to_be_migrated st ++ replicate (count_stale (VDict d)) j))).
  { intros Hnl.
    destruct (rewrite_record_no_objects d s Hd Hnl) as [-> ->]. simpl.
    rewrite (list_insert_id (heap st)) by done. rewrite app_nil_r. by destruct st. }
  destruct (s !! "objects") as [[|b|n|t|l|d']|] eqn:Hs; simpl in *;
    try (rewrite ?negb_true_iff in Hok; rewrite ?Hok; by apply Hskip).
  - destruct (rewrite_record_objects d s l Hd Hs) as [-> ->].
    destruct l as [|obj l]; simpl.
    + rewrite (with_objects_id d s []) by done.
      rewrite (list_insert_id (heap st)) by done. rewrite app_nil_r. by destruct st.
    + rewrite <- (with_objects_id d s (obj :: l)) in Hj by done.
      apply (migrate_objs_ok j d s (obj :: l) [] st Hj Hok).
Qed.

Lemma map_to_list_nonempty (m : gmap string value) :
  m <> ∅ -> exists k v rest, map_to_list m = (k, v) :: rest.
Proof.
  intros Hne. destruct (map_to_list m) as [|[k v] rest] eqn:E.
  - by apply map_to_list_empty_iff in E.
  - eauto.
Qed.

(** The body of the outer loop on a record it does not accept. *)
Lemma migrate_elem_raise j ti_elem st :
  record_ok ti_elem = false -> is_raise (migrate_elem j ti_elem st).
Proof.
  intros Hok. unfold record_ok, migrate_elem in *.
  destruct ti_elem as [| | | | |d]; simpl; try (eexists; reflexivity).
  destruct (d !! "status") as [[| | | | |s]|]; simpl; try (eexists; reflexivity).
  destruct (s !! "objects") as [[|b|n|t|l|d']|]; simpl in *; try done;
    rewrite ?negb_false_iff in Hok; try rewrite Hok; simpl;
    try (eexists; reflexivity).
  - destruct t as [|c t]; [done|]. simpl. eexists; reflexivity.
  - destruct l as [|obj l]; [done|]. by apply migrate_objs_raise.
  - apply negb_true_iff, bool_decide_eq_false in Hok.
    destruct (map_to_list_nonempty d' Hok) as (k & v & rest & ->). simpl.
    eexists; reflexivity.
Qed.

(** The outer loop on the records [elems] that follow the records [pre]. *)
Lemma migrate_elems_ok elems : forall pre st,
  heap st = pre ++ elems ->
  forallb record_ok elems = true ->
  migrate_elems (List.length pre) elems st
  = Ok (MState (pre ++ (rewrite_record <$> elems))
               (ti_to_be_migrated st ++ dirty_from (List.length pre) elems)).
Proof.
  induction elems as [|ti_elem rest IH]; intros pre st Hh Hok; simpl.
  - rewrite !app_nil_r. rewrite app_nil_r in Hh. rewrite <- Hh. by destruct st.
  - apply andb_prop in Hok as [Hrec Hrest].
    rewrite (migrate_elem_ok _ _ _ Hrec) by (rewrite Hh; by apply list_lookup_middle).
    simpl. rewrite Hh.
    replace (<[List.length pre := rewrite_record ti_elem]> (pre ++ ti_elem :: rest))
      with ((pre ++ [rewrite_record ti_elem]) ++ rest)
      by (rewrite insert_app_r_alt, Nat.sub_diag by lia; simpl; by rewrite <- app_assoc).
    replace (S (List.length pre)) with (List.length (pre ++ [rewrite_record ti_elem]))
      by (rewrite length_app; simpl; lia).
    rewrite IH by done. simpl. by rewrite <- !app_assoc.
Qed.

Lemma migrate_elems_raise elems : forall j st,
  forallb record_ok elems = false -> is_raise (migrate_elems j elems st).
Proof.
  induction elems as [|ti_elem rest IH]; intros j st Hok; simpl in *; [done|].
  destruct (record_ok ti_elem) eqn:Hrec; simpl in Hok.
  - destruct (migrate_elem j ti_elem st) as [st'|e]; simpl; [by apply IH | by exists e].
  - by apply is_raise_bind, migrate_elem_raise.
Qed.

(** [perform_migrations] in closed form: it returns exactly when every
    record of [ti_list] is accepted, and then every record was rewritten and
    a reference was appended for every stale entry. *)
Lemma perform_migrations_ok templateinstances elems :
  ti_elems templateinstances = Ok elems ->
  forallb record_ok elems = true ->
  perform_migrations templateinstances
  = Ok (MState (rewrite_record <$> elems) (dirty_from 0 elems)).
Proof.
  intros He Hok. unfold perform_migrations, ti_elems in *.
  destruct (select_ti_list templateinstances) as [ti_list|e]; simpl in *; [|done].
  rewrite He. simpl. by apply (migrate_elems_ok elems [] (MState elems [])).
Qed.

Lemma perform_migrations_raise templateinstances elems :
  ti_elems templateinstances = Ok elems ->
  forallb record_ok elems = false ->
  is_raise (perform_migrations templateinstances).
Proof.
  intros He Hok. unfold perform_migrations, ti_elems in *.
  destruct (select_ti_list templateinstances) as [ti_list|e]; simpl in *; [|done].
  rewrite He. simpl. by apply migrate_elems_raise.
Qed.

Lemma perform_migrations_inv templateinstances st :
  perform_migrations templateinstances = Ok st ->
  exists elems, ti_elems templateinstances = Ok elems
    /\ forallb record_ok elems = true
    /\ st = MState (rewrite_record <$> elems) (dirty_from 0 elems).
Proof.
  intros Hp. destruct (ti_elems templateinstances) as [elems|e] eqn:He.
  - exists elems. destruct (forallb record_ok elems) eqn:Hok.
    + rewrite (perform_migrations_ok _ _ He Hok) in Hp. by simplify_eq.
    + by destruct (is_raise_not_Ok _ st (perform_migrations_raise _ _ He Hok)).
  - unfold perform_migrations, ti_elems in *.
    destruct (select_ti_list templateinstances) as [ti_list|e']; simpl in *; [|done].
    by rewrite He in Hp.
Qed.

End Loop.

(** ** Stale references and the rewritten record *)

Section Records.

Implicit Types (d s o ref : gmap string value) (l objs elems : list value).
Implicit Types (st : mstate) (obj ti_elem : value) (i j : nat).

Local Arguments rewrite_record : simpl never.
Local Arguments rewrite_obj : simpl never.
Local Arguments count_stale : simpl never.

Lemma eq_str_true v c : Py.eq_str v c = true <-> v = VStr c.
Proof.
  destruct v; simpl; try (split; [discriminate | intros; discriminate]).
  rewrite String.eqb_eq. split; [by intros -> | by intros [= ->]].
Qed.

Lemma stale_to_spec ref c :
  stale_to ref = Some c
  <-> exists k, ref !! "kind" = Some (VStr k) /\ transforms !! k = Some c
                /\ ref !! "apiVersion" <> Some (VStr c).
Proof.
  unfold stale_to. split.
  - destruct (ref !! "kind") as [[| | |k| |]|]; try done.
    destruct (transforms !! k) as [c'|] eqn:Hc; [|done].
    destruct (Py.eq_str _ c') eqn:E; [done|]. intros [= ->].
    exists k. split_and!; try done. intros Hv. rewrite Hv in E. simpl in E.
    by rewrite String.eqb_refl in E.
  - intros (k & -> & -> & Hv).
    destruct (Py.eq_str _ c) eqn:E; [|done].
    apply eq_str_true in E. destruct (ref !! "apiVersion"); simpl in E; by subst.
Qed.

Lemma stale_ref_iff ref : stale_ref ref <-> is_Some (stale_to ref).
Proof.
  split.
  - intros (k & c & ?). exists c. apply stale_to_spec. eauto.
  - intros [c Hc]. apply stale_to_spec in Hc as (k & ?). exists k, c. done.
Qed.

Lemma is_stale_spec obj :
  is_stale obj = true <-> exists ref, ref_of obj = Some ref /\ stale_ref ref.
Proof.
  unfold is_stale. destruct (ref_of obj) as [ref|]; split.
  - intros H%bool_decide_eq_true. exists ref. by rewrite stale_ref_iff.
  - intros (ref' & [= <-] & H). by apply bool_decide_eq_true, stale_ref_iff.
  - done.
  - by intros (ref' & ? & _).
Qed.

Lemma stale_to_rewrite_ref ref : stale_to (rewrite_ref ref) = None.
Proof.
  unfold rewrite_ref. destruct (stale_to ref) as [c|] eqn:E; [|done].
  apply stale_to_spec in E as (k & Hk & Hc & _).
  unfold stale_to. rewrite lookup_insert_ne by done. rewrite Hk, Hc.
  rewrite lookup_insert_eq. simpl. by rewrite String.eqb_refl.
Qed.

Lemma rewrite_ref_kind ref : rewrite_ref ref !! "kind" = ref !! "kind".
Proof.
  unfold rewrite_ref. destruct (stale_to ref); [|done]. by rewrite lookup_insert_ne.
Qed.

Lemma ref_of_rewrite_obj obj : ref_of (rewrite_obj obj) = rewrite_ref <$> ref_of obj.
Proof.
  unfold rewrite_obj, ref_of. destruct obj as [| | | | |o]; try done.
  destruct (o !! "ref") as [[| | | | |ref]|] eqn:E; rewrite ?E; try done.
  by rewrite lookup_insert_eq.
Qed.

Lemma is_stale_rewrite_obj obj : is_stale (rewrite_obj obj) = false.
Proof.
  unfold is_stale. rewrite ref_of_rewrite_obj. destruct (ref_of obj); [|done]. simpl.
  rewrite stale_to_rewrite_ref. apply bool_decide_eq_false. by intros [].
Qed.

Lemma obj_ok_rewrite_obj obj : obj_ok (rewrite_obj obj) = obj_ok obj.
Proof.
  unfold obj_ok. rewrite ref_of_rewrite_obj. destruct (ref_of obj); [|done]. simpl.
  by rewrite rewrite_ref_kind.
Qed.

Lemma rewrite_obj_not_stale obj : is_stale obj = false -> rewrite_obj obj = obj.
Proof.
  unfold is_stale, ref_of, rewrite_obj. destruct obj as [| | | | |o]; try done.
  destruct (o !! "ref") as [[| | | | |ref]|] eqn:E; try done.
  intros H%bool_decide_eq_false. unfold rewrite_ref.
  destruct (stale_to ref); [by destruct H|]. by rewrite insert_id.
Qed.

Lemma objects_of_rewrite_record ti_elem :
  objects_of (rewrite_record ti_elem)
  = (fun l : list value => rewrite_obj <$> l) <$> objects_of ti_elem.
Proof.
  unfold rewrite_record, objects_of. destruct ti_elem as [| | | | |d]; try done.
  destruct (d !! "status") as [[| | | | |s]|] eqn:Hd; rewrite ?Hd; try done.
  destruct (s !! "objects") as [[| | | |l|]|] eqn:Hs; rewrite ?Hd, ?Hs; try done.
  unfold with_objects. by rewrite !lookup_insert_eq.
Qed.

Lemma ref_at_rewrite_record ti_elem i :
  ref_at (rewrite_record ti_elem) i = rewrite_ref <$> ref_at ti_elem i.
Proof.
  unfold ref_at. rewrite objects_of_rewrite_record.
  destruct (objects_of ti_elem) as [l|]; [|done]. simpl.
  rewrite list_lookup_fmap. destruct (l !! i) as [obj|]; [|done]. simpl.
  apply ref_of_rewrite_obj.
Qed.

Lemma count_stale_rewrite_record ti_elem : count_stale (rewrite_record ti_elem) = 0.
Proof.
  unfold count_stale. rewrite objects_of_rewrite_record.
  destruct (objects_of ti_elem) as [l|]; [|done]. simpl.
  induction l as [|obj l IH]; [done|]. rewrite fmap_cons, filter_cons.
  rewrite decide_False; [done|]. by rewrite is_stale_rewrite_obj.
Qed.

Lemma count_stale_pos ti_elem :
  0 < count_stale ti_elem
  <-> exists i ref, ref_at ti_elem i = Some ref /\ stale_ref ref.
Proof.
  unfold count_stale, ref_at. destruct (objects_of ti_elem) as [l|]; simpl.
  - split.
    + intros Hlen.
      destruct (filter (fun obj => is_stale obj = true) l) as [|obj rest] eqn:E;
        [simpl in Hlen; lia|].
      assert (Hin : obj ∈ filter (fun obj => is_stale obj = true) l)
        by (rewrite E; left).
      apply list_elem_of_filter in Hin as [Hst Hin].
      apply list_elem_of_lookup in Hin as [i Hi].
      apply is_stale_spec in Hst as (ref & Href & Hs).
      exists i, ref. rewrite Hi. simpl. done.
    + intros (i & ref & Hat & Hs).
      destruct (l !! i) as [obj|] eqn:Hi; [|done]. simpl in Hat.
      assert (Hin : obj ∈ filter (fun obj => is_stale obj = true) l).
      { apply list_elem_of_filter. split; [|by eapply list_elem_of_lookup_2].
        apply is_stale_spec. eauto. }
      destruct (filter _ l); [by apply elem_of_nil in Hin | simpl; lia].
  - split; [simpl; lia | by intros (i & ref & ? & _)].
Qed.

Lemma record_ok_rewrite_record ti_elem :
  record_ok ti_elem = true -> record_ok (rewrite_record ti_elem) = true.
Proof.
  unfold record_ok, rewrite_record. destruct ti_elem as [| | | | |d]; try done.
  destruct (d !! "status") as [[| | | | |s]|] eqn:Hd; try done.
  destruct (s !! "objects") as [[| | | |l|]|] eqn:Hs; simpl; rewrite ?Hd, ?Hs; try done.
  unfold with_objects. rewrite !lookup_insert_eq. simpl.
  rewrite !forallb_forall. intros Hall obj' Hin.
  apply in_map_iff in Hin as (obj & <- & Hin). rewrite obj_ok_rewrite_obj. auto.
Qed.

Lemma occurrences_app j out1 out2 :
  occurrences j (out1 ++ out2) = occurrences j out1 + occurrences j out2.
Proof. unfold occurrences. by rewrite filter_app, length_app. Qed.

Lemma occurrences_replicate j n j0 :
  occurrences j (replicate n j0) = if decide (j0 = j) then n else 0.
Proof.
  unfold occurrences. induction n as [|n IH]; simpl.
  - by destruct (decide (j0 = j)).
  - rewrite filter_cons. destruct (decide (j0 = j)); simpl; [by rewrite IH | done].
Qed.

Lemma occurrences_pos j out : 0 < occurrences j out <-> j ∈ out.
Proof.
  unfold occurrences. split.
  - intros Hlen. destruct (filter (fun x => x = j) out) as [|x rest] eqn:E;
      [simpl in Hlen; lia|].
    assert (Hin : x ∈ filter (fun x => x = j) out) by (rewrite E; left).
    by apply list_elem_of_filter in Hin as [-> Hin].
  - intros Hin. assert (Hin' : j ∈ filter (fun x => x = j) out)
      by (by apply list_elem_of_filter).
    destruct (filter _ out); [by apply elem_of_nil in Hin' | simpl; lia].
Qed.

(** How often position [j] is appended for the records at [j0], [j0+1], ... *)
Lemma occurrences_dirty_from j elems : forall j0,
  occurrences j (dirty_from j0 elems)
  = if decide (j0 <= j) then from_option count_stale 0 (elems !! (j - j0)) else 0.
Proof.
  induction elems as [|ti_elem rest IH]; intros j0; simpl.
  - by destruct (decide (j0 <= j)).
  - rewrite occurrences_app, occurrences_replicate, IH.
    repeat case_decide; subst; try lia.
    + rewrite Nat.sub_diag. simpl. lia.
    + replace (j - j0) with (S (j - S j0)) by lia. done.
Qed.

Lemma occurrences_dirty j elems :
  occurrences j (dirty_from 0 elems) = from_option count_stale 0 (elems !! j).
Proof. rewrite occurrences_dirty_from, decide_True by lia. by rewrite Nat.sub_0_r. Qed.

End Records.

(** ** The result list of perform_migrations *)

Section Result.

Implicit Types (d s o ref : gmap string value) (l objs elems : list value).
Implicit Types (st : mstate) (obj ti_elem : value) (i j : nat).

Lemma run_facts templateinstances st elems :
  perform_migrations templateinstances = Ok st ->
  ti_elems templateinstances = Ok elems ->
  forallb record_ok elems = true
  /\ heap st = rewrite_record <$> elems
  /\ ti_to_be_migrated st = dirty_from 0 elems.
Proof.
  intros Hp He. apply perform_migrations_inv in Hp as (elems' & He' & Hok & ->).
  rewrite He in He'. by simplify_eq.
Qed.

Lemma elem_of_dirty j elems :
  j ∈ dirty_from 0 elems
  <-> exists ti_elem i ref,
        elems !! j = Some ti_elem /\ ref_at ti_elem i = Some ref /\ stale_ref ref.
Proof.
  rewrite <- occurrences_pos, occurrences_dirty. split.
  - destruct (elems !! j) as [ti_elem|]; simpl; [|lia].
    intros (i & ref & ? & ?)%count_stale_pos. by exists ti_elem, i, ref.
  - intros (ti_elem & i & ref & -> & ? & ?). simpl. apply count_stale_pos. eauto.
Qed.

Lemma rewrite_ref_changes ref :
  rewrite_ref ref !! "apiVersion" <> ref !! "apiVersion" <-> stale_ref ref.
Proof.
  rewrite stale_ref_iff. unfold rewrite_ref.
  destruct (stale_to ref) as [c|] eqn:E.
  - split; [eauto|]. intros _. apply stale_to_spec in E as (k & _ & _ & Hv).
    rewrite lookup_insert_eq. congruence.
  - split; [done | by intros []].
Qed.

(** C1, as the code has it: a record is appended once for every reference of
    it that the call rewrites, so the record at position [j] occurs in the
    returned list as many times as it had stale references, and the
    references are appended record by record in the order of [ti_list]. *)
Theorem migrated_once_per_rewrite templateinstances st elems :
  perform_migrations templateinstances = Ok st ->
  ti_elems templateinstances = Ok elems ->
  ti_to_be_migrated st = dirty_from 0 elems
  /\ forall j ti_elem, elems !! j = Some ti_elem ->
       occurrences j (ti_to_be_migrated st) = count_stale ti_elem.
Proof.
  intros Hp He. destruct (run_facts _ _ _ Hp He) as (_ & _ & Hout).
  split; [done|]. intros j ti_elem Hj. by rewrite Hout, occurrences_dirty, Hj.
Qed.

(** C3: a record is in the result exactly when one of its object references
    has a kind of [transforms] and a stored version other than the canonical
    one before the call, which is exactly when the call changed the
    [apiVersion] of one of its references. *)
Theorem included_iff_reference_changed templateinstances st elems j :
  perform_migrations templateinstances = Ok st ->
  ti_elems templateinstances = Ok elems ->
  (j ∈ ti_to_be_migrated st
   <-> exists ti_elem i ref,
         elems !! j = Some ti_elem /\ ref_at ti_elem i = Some ref /\ stale_ref ref)
  /\ (j ∈ ti_to_be_migrated st
      <-> exists ti_elem ti_elem' i ref ref',
            elems !! j = Some ti_elem /\ heap st !! j = Some ti_elem'
            /\ ref_at ti_elem i = Some ref /\ ref_at ti_elem' i = Some ref'
            /\ ref' !! "apiVersion" <> ref !! "apiVersion").
Proof.
  intros Hp He. destruct (run_facts _ _ _ Hp He) as (_ & Hheap & Hout).
  rewrite Hout, Hheap. split; [apply elem_of_dirty|].
  rewrite elem_of_dirty. split.
  - intros (ti_elem & i & ref & Hj & Hat & Hs).
    exists ti_elem, (rewrite_record ti_elem), i, ref, (rewrite_ref ref).
    rewrite list_lookup_fmap, Hj, ref_at_rewrite_record, Hat. simpl.
    split_and!; try done. by apply rewrite_ref_changes.
  - intros (ti_elem & ti_elem' & i & ref & ref' & Hj & Hj' & Hat & Hat' & Hne).
    rewrite list_lookup_fmap, Hj in Hj'. simpl in Hj'. simplify_eq.
    rewrite ref_at_rewrite_record, Hat in Hat'. simpl in Hat'. simplify_eq.
    exists ti_elem, i, ref. split_and!; try done. by apply rewrite_ref_changes.
Qed.

(** C4: the [apiVersion] of a reference is set to the canonical value exactly
    when its kind has an entry in [transforms] and its stored version (or
    its absence) differs from it, and the record is then in the result; no
    other reference is written. *)
Theorem rewritten_exactly_when_stale templateinstances st elems j ti_elem i ref :
  perform_migrations templateinstances = Ok st ->
  ti_elems templateinstances = Ok elems ->
  elems !! j = Some ti_elem ->
  ref_at ti_elem i = Some ref ->
  exists ti_elem',
    heap st !! j = Some ti_elem'
    /\ (forall k c, ref !! "kind" = Some (VStr k) -> transforms !! k = Some c ->
          ref !! "apiVersion" <> Some (VStr c) ->
          ref_at ti_elem' i = Some (<["apiVersion" := VStr c]> ref)
          /\ j ∈ ti_to_be_migrated st)
    /\ (~ stale_ref ref -> ref_at ti_elem' i = Some ref).
Proof.
  intros Hp He Hj Hat. destruct (run_facts _ _ _ Hp He) as (_ & Hheap & Hout).
  exists (rewrite_record ti_elem). rewrite Hheap, Hout, list_lookup_fmap, Hj.
  rewrite ref_at_rewrite_record, Hat. simpl. split_and!; [done| |].
  - intros k c Hk Hc Hv.
    assert (Hs : stale_to ref = Some c) by (apply stale_to_spec; eauto).
    unfold rewrite_ref. rewrite Hs. split; [done|].
    apply elem_of_dirty. exists ti_elem, i, ref. split_and!; try done.
    by exists k, c.
  - intros Hns. unfold rewrite_ref.
    destruct (stale_to ref) eqn:E; [|done]. destruct Hns. apply stale_ref_iff. eauto.
Qed.

(** C6: an entry whose reference has a kind outside [transforms] is left as
    it was, whatever its [apiVersion], and whenever its record is in the
    result another entry of the record, with a stale reference, put it there. *)
Theorem unmapped_kind_untouched templateinstances st elems j ti_elem l i obj ref :
  perform_migrations templateinstances = Ok st ->
  ti_elems templateinstances = Ok elems ->
  elems !! j = Some ti_elem ->
  objects_of ti_elem = Some l ->
  l !! i = Some obj ->
  ref_of obj = Some ref ->
  (forall k, ref !! "kind" = Some (VStr k) -> transforms !! k = None) ->
  (exists ti_elem' l',
     heap st !! j = Some ti_elem' /\ objects_of ti_elem' = Some l' /\ l' !! i = Some obj)
  /\ (j ∈ ti_to_be_migrated st ->
      exists i' ref', i' <> i /\ ref_at ti_elem i' = Some ref' /\ stale_ref ref').
Proof.
  intros Hp He Hj Hl Hi Href Hun.
  destruct (run_facts _ _ _ Hp He) as (_ & Hheap & Hout).
  assert (Hns : ~ stale_ref ref).
  { intros (k & c & Hk & Hc & _). specialize (Hun k Hk). congruence. }
  split.
  - exists (rewrite_record ti_elem), (rewrite_obj <$> l).
    rewrite Hheap, list_lookup_fmap, Hj, objects_of_rewrite_record, Hl. simpl.
    split_and!; try done. rewrite list_lookup_fmap, Hi. simpl. f_equal.
    apply rewrite_obj_not_stale. destruct (is_stale obj) eqn:E; [|done].
    apply is_stale_spec in E as (ref0 & ? & ?). by simplify_eq.
  - rewrite Hout. intros (ti_elem0 & i' & ref' & Hj' & Hat & Hs)%elem_of_dirty.
    simplify_eq. exists i', ref'. split_and!; try done. intros ->.
    unfold ref_at in Hat. rewrite Hl in Hat. simpl in Hat. rewrite Hi in Hat.
    simpl in Hat. by simplify_eq.
Qed.

End Result.

(** ** A second pass *)

Section SecondPass.

Implicit Types (d s o ref : gmap string value) (l objs elems : list value).
Implicit Types (st : mstate) (obj ti_elem : value) (i j : nat).

Local Arguments rewrite_record : simpl never.
Local Arguments rewrite_obj : simpl never.

Lemma rewrite_obj_idem obj : rewrite_obj (rewrite_obj obj) = rewrite_obj obj.
Proof. apply rewrite_obj_not_stale, is_stale_rewrite_obj. Qed.

Lemma rewrite_record_idem ti_elem :
  rewrite_record (rewrite_record ti_elem) = rewrite_record ti_elem.
Proof.
  destruct ti_elem as [| | | | |d]; try done.
  destruct (d !! "status") as [[| | | | |s]|] eqn:Hd;
    try (assert (E : rewrite_record (VDict d) = VDict d)
           by (unfold rewrite_record; by rewrite Hd); by rewrite !E).
  destruct (s !! "objects") as [[| | | |l|]|] eqn:Hs;
    try (assert (E : rewrite_record (VDict d) = VDict d)
           by (unfold rewrite_record; by rewrite Hd, Hs); by rewrite !E).
  destruct (rewrite_record_objects d s l Hd Hs) as [-> _].
  unfold with_objects at 1.
  destruct (rewrite_record_objects
              (<["status" := VDict (<["objects" := VList (rewrite_obj <$> l)]> s)]> d)
              (<["objects" := VList (rewrite_obj <$> l)]> s)
              (rewrite_obj <$> l)) as [-> _]; [apply lookup_insert_eq ..|].
  unfold with_objects. rewrite !insert_insert_eq. do 5 f_equal.
  rewrite <- list_fmap_compose. apply list_fmap_ext. intros ? obj _. simpl.
  apply rewrite_obj_idem.
Qed.

Lemma rewrite_record_keys d :
  exists d', rewrite_record (VDict d) = VDict d'
             /\ forall k, k <> "status" -> d' !! k = d !! k.
Proof.
  unfold rewrite_record.
  destruct (d !! "status") as [[| | | | |s]|]; try (by exists d).
  destruct (s !! "objects") as [[| | | |l|]|]; try (by exists d).
  eexists. split; [reflexivity|]. intros k Hk. by rewrite lookup_insert_ne.
Qed.

Lemma dirty_from_rewritten elems : forall j0,
  dirty_from j0 (rewrite_record <$> elems) = [].
Proof.
  induction elems as [|ti_elem rest IH]; intros j0; [done|].
  rewrite fmap_cons. simpl. by rewrite count_stale_rewrite_record, IH.
Qed.

Lemma record_ok_rewritten elems :
  forallb record_ok elems = true -> forallb record_ok (rewrite_record <$> elems) = true.
Proof.
  rewrite !forallb_forall. intros Hall r' Hin.
  apply in_map_iff in Hin as (r & <- & Hin). apply record_ok_rewrite_record. auto.
Qed.

(** The records a second call visits are the objects the first one left. *)
Lemma ti_elems_applied templateinstances st :
  perform_migrations templateinstances = Ok st ->
  ti_elems (migrate_applied templateinstances st) = Ok (heap st).
Proof.
  intros Hp. apply perform_migrations_inv in Hp as (elems & He & Hok & ->). simpl.
  unfold ti_elems, select_ti_list, migrate_applied in *.
  destruct templateinstances as [| | | | |d]; try done. simpl in *.
  destruct (Py.eq_str (default VNone (d !! "kind")) "TemplateInstanceList") eqn:Hkind;
    simpl in *.
  - destruct (Py.truthy (default VNone (d !! "items"))) eqn:Hitems; simpl in *.
    + rewrite lookup_insert_ne by done. rewrite Hkind. simpl.
      rewrite lookup_insert_eq. simpl.
      destruct (default VNone (d !! "items")) as [|b|n|t|l|d'];
        simpl in *; try done.
      * destruct t as [|a t]; [done|]. simpl in He. by simplify_eq.
      * simplify_eq. by destruct elems.
      * apply negb_true_iff, bool_decide_eq_false in Hitems.
        destruct (map_to_list_nonempty d' Hitems) as (k & v & rest & E).
        rewrite E in He. simpl in He. by simplify_eq.
    + simplify_eq. simpl.
      destruct (rewrite_record_keys d) as (d' & -> & Hkeys). simpl.
      rewrite !Hkeys by done. rewrite Hkind. simpl. by rewrite Hitems.
  - simplify_eq. simpl.
    destruct (rewrite_record_keys d) as (d' & -> & Hkeys). simpl.
    rewrite !Hkeys by done. by rewrite Hkind.
Qed.

(** C5: a call on the input as a first call left it returns an empty list
    and leaves every record as it is. *)
Theorem migrate_idempotent templateinstances st :
  perform_migrations templateinstances = Ok st ->
  perform_migrations (migrate_applied templateinstances st) = Ok (MState (heap st) []).
Proof.
  intros Hp. pose proof (ti_elems_applied _ _ Hp) as He2.
  apply perform_migrations_inv in Hp as (elems & He & Hok & ->). simpl in *.
  rewrite (perform_migrations_ok _ _ He2 (record_ok_rewritten _ Hok)).
  rewrite dirty_from_rewritten. do 2 f_equal.
  rewrite <- list_fmap_compose. apply list_fmap_ext. intros ? r _. simpl.
  apply rewrite_record_idem.
Qed.

End SecondPass.

(** ** When perform_migrations raises *)

Section Raising.

Implicit Types (d s o ref : gmap string value) (l objs elems : list value).
Implicit Types (st : mstate) (obj ti_elem : value) (i j : nat).

Lemma forallb_lookup_false {A : Type} (f : A -> bool) (xs : list A) (n : nat) (x : A) :
  xs !! n = Some x -> f x = false -> forallb f xs = false.
Proof.
  intros Hn Hx. destruct (forallb f xs) eqn:E; [|done].
  rewrite forallb_forall in E. rewrite <- Hx. symmetry. apply E.
  apply list_elem_of_In. by eapply list_elem_of_lookup_2.
Qed.

(** C2, as the code has it: on an input that is a dict and whose [ti_list]
    can be iterated, [elems] being the records the loop visits, the call
    returns exactly when every record is a dict whose [status] is a dict and
    whose [objects] is absent, falsy, or a list of entries that each carry a
    dict [ref] with a hashable [kind].  A record whose [status] has no
    [objects] is then left as it is and is not in the result; a record
    without [status], and an entry without [ref] or without [kind], make the
    call raise an exception (which one is not stated here). *)
Theorem returns_iff_records_accepted templateinstances elems :
  ti_elems templateinstances = Ok elems ->
  ((exists st, perform_migrations templateinstances = Ok st)
   <-> forallb record_ok elems = true)
  /\ (forall st j d s,
        perform_migrations templateinstances = Ok st ->
        elems !! j = Some (VDict d) -> d !! "status" = Some (VDict s) ->
        s !! "objects" = None ->
        (j ∉ ti_to_be_migrated st) /\ heap st !! j = Some (VDict d))
  /\ (forall j d,
        elems !! j = Some (VDict d) -> d !! "status" = None ->
        is_raise (perform_migrations templateinstances))
  /\ (forall j ti_elem l i o,
        elems !! j = Some ti_elem -> objects_of ti_elem = Some l ->
        l !! i = Some (VDict o) ->
        (o !! "ref" = None
         \/ exists ref, o !! "ref" = Some (VDict ref) /\ ref !! "kind" = None) ->
        is_raise (perform_migrations templateinstances)).
Proof.
  intros He. split_and!.
  - split.
    + intros [st Hp]. by destruct (run_facts _ _ _ Hp He) as (Hok & _).
    + intros Hok. eexists. by apply perform_migrations_ok.
  - intros st j d s Hp Hj Hd Hs. destruct (run_facts _ _ _ Hp He) as (_ & Hheap & Hout).
    assert (Hno : forall l, s !! "objects" <> Some (VList l)) by (intros l; by rewrite Hs).
    destruct (rewrite_record_no_objects d s Hd Hno) as [Hrw Hcount]. split.
    + intros Hin%occurrences_pos.
      rewrite Hout, occurrences_dirty, Hj in Hin. simpl in Hin. lia.
    + rewrite Hheap, list_lookup_fmap, Hj. cbn [fmap option_fmap option_map].
      by rewrite Hrw.
  - intros j d Hj Hd. apply (perform_migrations_raise _ _ He).
    apply (forallb_lookup_false _ _ _ _ Hj). unfold record_ok. by rewrite Hd.
  - intros j ti_elem l i o Hj Hl Hi Hbad. apply (perform_migrations_raise _ _ He).
    apply (forallb_lookup_false _ _ _ _ Hj). unfold record_ok, objects_of in *.
    destruct ti_elem as [| | | | |d]; try done.
    destruct (d !! "status") as [[| | | | |s]|]; try done.
    destruct (s !! "objects") as [[| | | |l'|]|]; try done. simplify_eq. simpl.
    apply (forallb_lookup_false _ _ _ _ Hi). unfold obj_ok, ref_of.
    destruct Hbad as [-> | (ref & -> & ->)]; done.
Qed.

(** C10: a [TemplateInstanceList] whose [items] is absent, [None] or empty is
    itself the one record of [ti_list]; its ["status"] key is indexed, and
    the call raises when it has none. *)
Theorem empty_list_taken_as_record d :
  d !! "kind" = Some (VStr "TemplateInstanceList") ->
  (d !! "items" = None \/ d !! "items" = Some VNone \/ d !! "items" = Some (VList [])) ->
  select_ti_list (VDict d) = Ok (VList [VDict d])
  /\ perform_migrations (VDict d) = migrate_elem 0 (VDict d) (MState [VDict d] [])
  /\ (d !! "status" = None ->
      perform_migrations (VDict d) = Raise (KeyError (VStr "status"))).
Proof.
  intros Hkind Hitems.
  assert (Hsel : select_ti_list (VDict d) = Ok (VList [VDict d])).
  { unfold select_ti_list. simpl. rewrite Hkind. simpl.
    by destruct Hitems as [-> | [-> | ->]]. }
  assert (Hp : perform_migrations (VDict d)
               = migrate_elem 0 (VDict d) (MState [VDict d] [])).
  { unfold perform_migrations. rewrite Hsel. simpl.
    by destruct (migrate_elem 0 (VDict d) _). }
  split_and!; try done.
  intros Hd. rewrite Hp. unfold migrate_elem. simpl. by rewrite Hd.
Qed.

End Raising.

(** ** The module run *)

Section Run.

Import Exec.

Implicit Types (c : client) (st : mstate) (tis : list value).

Lemma deref_length templateinstances st :
  perform_migrations templateinstances = Ok st ->
  List.length (deref st) = List.length (ti_to_be_migrated st).
Proof.
  intros Hp. apply perform_migrations_inv in Hp as (elems & He & Hok & ->).
  unfold deref. simpl.
  assert (Hall : forall j, j ∈ dirty_from 0 elems -> is_Some (elems !! j)).
  { intros j (ti_elem & _ & _ & -> & _)%elem_of_dirty. eauto. }
  induction (dirty_from 0 elems) as [|j out IH]; [done|]. simpl.
  destruct (Hall j) as [r Hr]; [left|].
  rewrite list_lookup_fmap, Hr. simpl. f_equal. apply IH.
  intros j' Hj'. apply Hall. by right.
Qed.

Lemma patch_all_ok c (f : nat -> value -> value) tis : forall n trace result,
  (forall k t, tis !! k = Some t -> status_patch c (n + k) t = inr (f (n + k) t)) ->
  patch_all c n tis trace result
  = (trace ++ (EvPatch <$> tis),
     ExitJson true (result ++ imap (fun k => f (n + k)) tis)).
Proof.
  induction tis as [|t rest IH]; intros n trace result Hall; simpl.
  - by rewrite !app_nil_r.
  - unfold patch_template_instance.
    rewrite <- (Nat.add_0_r n) at 1. rewrite (Hall 0 t eq_refl).
    rewrite IH.
    + rewrite <- !app_assoc. simpl. rewrite Nat.add_0_r. do 4 f_equal.
      apply imap_ext. intros k x _. simpl. f_equal. lia.
    + intros k x Hk. replace (S n + k) with (n + S k) by lia. by apply Hall.
Qed.

(** C7: with a namespace, the run is the one fetch from that namespace; no
    record is rewritten or patched, and the module reports no change and an
    empty result whatever the fetched records hold. *)
Theorem namespace_branch_fetches_only c ns check_mode :
  ns <> "" ->
  fst (execute_module c (Some ns) check_mode) = [EvGet (Some ns)]
  /\ forallb is_patch (fst (execute_module c (Some ns) check_mode)) = false
  /\ (forall templateinstances,
        resource_get c (Some ns) = inr templateinstances ->
        snd (execute_module c (Some ns) check_mode) = ExitJson false [])
  /\ (forall exc,
        resource_get c (Some ns) = inl exc ->
        snd (execute_module c (Some ns) check_mode)
        = FailJson (FailedToRetrieve ns exc)).
Proof.
  intros Hns. unfold execute_module. simpl.
  assert (E : String.eqb ns "" = false) by (by apply String.eqb_neq).
  rewrite E. simpl.
  destruct (resource_get c (Some ns)) as [exc|ti]; simpl; split_and!; try done.
  - intros ? [= <-]. done.
Qed.

(** C8, as the code has it: without a namespace, an empty migrated list ends
    the module with [changed=False] and an empty result in either mode; a
    non-empty one is returned as it is with [changed=True] and no patch in
    check mode, and otherwise every entry of it is patched in order, the
    patched documents are gathered and [changed] is [True]. *)
Theorem all_namespaces_branch c namespace check_mode templateinstances st :
  namespace_given namespace = false ->
  resource_get c None = inr templateinstances ->
  perform_migrations templateinstances = Ok st ->
  List.length (deref st) = List.length (ti_to_be_migrated st)
  /\ (ti_to_be_migrated st = [] ->
      execute_module c namespace check_mode = ([EvGet None], ExitJson false []))
  /\ (ti_to_be_migrated st <> [] -> check_mode = true ->
      execute_module c namespace check_mode
      = ([EvGet None], ExitJson true (deref st)))
  /\ (ti_to_be_migrated st <> [] -> check_mode = false ->
      forall f : nat -> value -> value,
        (forall k t, deref st !! k = Some t -> status_patch c k t = inr (f k t)) ->
        execute_module c namespace check_mode
        = (EvGet None :: (EvPatch <$> deref st), ExitJson true (imap f (deref st)))).
Proof.
  intros Hns Hget Hp. unfold execute_module. rewrite Hns, Hget, Hp.
  split_and!.
  - by apply deref_length in Hp.
  - by intros ->.
  - intros Hne ->. by destruct (ti_to_be_migrated st).
  - intros Hne -> f Hall. destruct (ti_to_be_migrated st); [done|].
    by rewrite (patch_all_ok c f).
Qed.

End Run.

(** ** Concrete runs *)

Section Examples.

Import Exec.

Local Ltac run := vm_compute; reflexivity.

(** C9: the Route reference is moved to [route.openshift.io/v1], the Secret
    reference stays, and the record is returned once, whether it is passed
    on its own or as the one item of a list. *)
Theorem route_secret_scenario :
  migrated ex_route_secret = Ok [ex_migrated_route_secret]
  /\ migrated (mk_ti_list [ex_route_secret]) = Ok [ex_migrated_route_secret]
  /\ ref_at ex_migrated_route_secret 1 = Some ex_secret_ref
  /\ ref_at ex_route_secret 1 = Some ex_secret_ref.
Proof. split_and!; run. Qed.

(** C1 fails as stated: a record with two stale references is returned
    twice. *)
Lemma two_rewrites_two_entries :
  exists st,
    perform_migrations (mk_ti_list [ex_two_stale]) = Ok st
    /\ ti_to_be_migrated st = [0; 0]
    /\ ~ occurrences 0 (ti_to_be_migrated st) <= 1
    /\ deref st = [ex_migrated_two_stale; ex_migrated_two_stale].
Proof.
  eexists. split; [run|]. split_and!; [run| |run].
  vm_compute. lia.
Qed.

(** C2 fails as stated: a record without [status] and an entry without
    [kind] make the call raise. *)
Lemma raises_on_missing_keys :
  perform_migrations (mk_ti_list [ex_no_status]) = Raise (KeyError (VStr "status"))
  /\ perform_migrations (mk_ti_list [ex_no_kind]) = Raise (KeyError (VStr "kind")).
Proof. split; run. Qed.

(** C8 fails as stated: in check mode with nothing to migrate the module
    reports [changed=False]. *)
Lemma check_mode_without_changes :
  execute_module (ex_client (mk_ti_list [ex_migrated_route_secret])) None true
  = ([EvGet None], ExitJson false []).
Proof. run. Qed.

Lemma migrated_once_per_rewrite_witness :
  exists st,
    perform_migrations (mk_ti_list [ex_two_stale]) = Ok st
    /\ ti_to_be_migrated st = dirty_from 0 [ex_two_stale]
    /\ forall j ti_elem, [ex_two_stale] !! j = Some ti_elem ->
         occurrences j (ti_to_be_migrated st) = count_stale ti_elem.
Proof.
  eexists. split; [run|].
  apply (migrated_once_per_rewrite (mk_ti_list [ex_two_stale]) _ [ex_two_stale]); run.
Defined.

Lemma included_iff_reference_changed_witness :
  exists st,
    perform_migrations (mk_ti_list [ex_route_secret]) = Ok st
    /\ (0 ∈ ti_to_be_migrated st
        <-> exists ti_elem i ref,
              [ex_route_secret] !! 0 = Some ti_elem /\ ref_at ti_elem i = Some ref
              /\ stale_ref ref).
Proof.
  eexists. split; [run|].
  apply (included_iff_reference_changed
           (mk_ti_list [ex_route_secret]) _ [ex_route_secret] 0); run.
Defined.

Lemma rewritten_exactly_when_stale_witness :
  exists st ti_elem',
    perform_migrations (mk_ti_list [ex_route_secret]) = Ok st
    /\ heap st !! 0 = Some ti_elem'
    /\ ref_at ti_elem' 0 = Some (<["apiVersion" := VStr "route.openshift.io/v1"]> ex_route_ref)
    /\ 0 ∈ ti_to_be_migrated st.
Proof.
  eexists.
  destruct (rewritten_exactly_when_stale
              (mk_ti_list [ex_route_secret]) _ [ex_route_secret] 0 ex_route_secret
              0 ex_route_ref ltac:(run) ltac:(run) ltac:(run) ltac:(run))
    as (ti_elem' & Hheap & Hstale & _).
  exists ti_elem'. split; [reflexivity|]. split; [exact Hheap|].
  apply (Hstale "Route" "route.openshift.io/v1"); [run | run | vm_compute; discriminate].
Defined.

Lemma migrate_idempotent_witness :
  exists st,
    perform_migrations (mk_ti_list [ex_two_stale]) = Ok st
    /\ perform_migrations (migrate_applied (mk_ti_list [ex_two_stale]) st)
       = Ok (MState (heap st) []).
Proof.
  eexists. split; [run|].
  apply (migrate_idempotent (mk_ti_list [ex_two_stale])); run.
Defined.

Lemma unmapped_kind_untouched_witness :
  exists st,
    perform_migrations (mk_ti_list [ex_route_secret]) = Ok st
    /\ exists ti_elem' l',
         heap st !! 0 = Some ti_elem' /\ objects_of ti_elem' = Some l'
         /\ l' !! 1 = Some (mk_ref "Secret" "v1").
Proof.
  eexists. split; [run|].
  refine (proj1 (unmapped_kind_untouched
            (mk_ti_list [ex_route_secret]) _ [ex_route_secret] 0 ex_route_secret
            [mk_ref "Route" "route.openshift.io/v1.Route"; mk_ref "Secret" "v1"]
            1 (mk_ref "Secret" "v1") ex_secret_ref _ _ _ _ _ _ _)); try run.
  intros k Hk. vm_compute in Hk. injection Hk as <-. run.
Defined.

Lemma returns_iff_records_accepted_witness :
  ((exists st, perform_migrations (mk_ti_list [VDict ex_no_objects]) = Ok st)
   <-> forallb record_ok [VDict ex_no_objects] = true)
  /\ forall st,
       perform_migrations (mk_ti_list [VDict ex_no_objects]) = Ok st ->
       (0 ∉ ti_to_be_migrated st) /\ heap st !! 0 = Some (VDict ex_no_objects).
Proof.
  destruct (returns_iff_records_accepted
              (mk_ti_list [VDict ex_no_objects]) [VDict ex_no_objects] ltac:(run))
    as (Hiff & Hskip & _).
  split; [exact Hiff|]. intros st Hp.
  apply (Hskip st 0 ex_no_objects ∅ Hp); run.
Defined.

Lemma empty_list_taken_as_record_witness :
  perform_migrations (VDict ex_empty_list) = Raise (KeyError (VStr "status")).
Proof.
  apply (empty_list_taken_as_record ex_empty_list); [run | right; right; run | run].
Defined.

Lemma namespace_branch_fetches_only_witness :
  fst (execute_module (ex_client (mk_ti_list [ex_two_stale])) (Some "test") false)
  = [EvGet (Some "test")]
  /\ snd (execute_module (ex_client (mk_ti_list [ex_two_stale])) (Some "test") false)
     = ExitJson false [].
Proof.
  destruct (namespace_branch_fetches_only
              (ex_client (mk_ti_list [ex_two_stale])) "test" false ltac:(discriminate))
    as (Htrace & _ & Hexit & _).
  split; [exact Htrace|]. by apply (Hexit (mk_ti_list [ex_two_stale])).
Defined.

Lemma all_namespaces_branch_witness :
  exists st,
    perform_migrations (mk_ti_list [ex_two_stale]) = Ok st
    /\ execute_module (ex_client (mk_ti_list [ex_two_stale])) None false
       = (EvGet None :: (EvPatch <$> deref st),
          ExitJson true (imap (fun _ ti => ti) (deref st))).
Proof.
  eexists. split; [run|].
  refine (proj2 (proj2 (proj2 (all_namespaces_branch
            (ex_client (mk_ti_list [ex_two_stale])) None false
            (mk_ti_list [ex_two_stale]) _ eq_refl eq_refl _))) _ eq_refl
            (fun _ ti => ti) _); [run | vm_compute; discriminate | reflexivity].
Defined.

End Examples.

(** ** Further properties of perform_migrations *)

Section MoreResult.

Implicit Types (d s o ref : gmap string value) (l objs elems : list value).
Implicit Types (st : mstate) (obj ti_elem : value) (i j : nat).

Local Arguments rewrite_record : simpl never.
Local Arguments rewrite_obj : simpl never.
Local Arguments count_stale : simpl never.

Local Ltac run := vm_compute; reflexivity.

Lemma omap_replicate {A B : Type} (f : A -> option B) (n : nat) (x : A) (y : B) :
  f x = Some y -> omap f (replicate n x) = replicate n y.
Proof.
  intros Hx. induction n as [|n IH]; [done|].
  change (replicate (S n) x) with ([x] ++ replicate n x).
  rewrite omap_app, IH. simpl. by rewrite Hx.
Qed.

Lemma deref_dirty_from elems : forall pre,
  omap (fun j => (pre ++ (rewrite_record <$> elems)) !! j)
       (dirty_from (List.length pre) elems)
  = concat ((fun ti_elem => replicate (count_stale ti_elem) (rewrite_record ti_elem))
            <$> elems).
Proof.
  induction elems as [|ti_elem rest IH]; intros pre; [done|].
  rewrite !fmap_cons. simpl. rewrite omap_app.
  rewrite (omap_replicate _ _ _ (rewrite_record ti_elem))
    by (by apply list_lookup_middle).
  f_equal. specialize (IH (pre ++ [rewrite_record ti_elem])).
  rewrite length_app, Nat.add_1_r, <- app_assoc in IH. apply IH.
Qed.

Lemma dirty_from_bounds elems : forall j0 j,
  j ∈ dirty_from j0 elems -> j0 <= j < j0 + List.length elems.
Proof.
  induction elems as [|ti_elem rest IH]; intros j0 j; simpl.
  - by intros ?%elem_of_nil.
  - intros [Hin | Hin]%elem_of_app.
    + apply elem_of_replicate_inv in Hin. lia.
    + apply IH in Hin. lia.
Qed.

Lemma dirty_from_sorted elems : forall j0 n m j j',
  n <= m ->
  dirty_from j0 elems !! n = Some j -> dirty_from j0 elems !! m = Some j' ->
  j <= j'.
Proof.
  induction elems as [|ti_elem rest IH]; intros j0 n m j j' Hnm; simpl; [done|].
  rewrite !lookup_app_Some, !length_replicate.
  intros [Hn | [Hn1 Hn2]] [Hm | [Hm1 Hm2]].
  - apply lookup_replicate in Hn as [-> _]. by apply lookup_replicate in Hm as [-> _].
  - apply lookup_replicate in Hn as [-> _].
    apply list_elem_of_lookup_2, dirty_from_bounds in Hm2. lia.
  - apply lookup_replicate in Hm as [_ Hm]. lia.
  - apply (IH (S j0) (n - count_stale ti_elem) (m - count_stale ti_elem)); [lia|done..].
Qed.

Lemma length_dirty_from elems : forall j0,
  List.length (dirty_from j0 elems) = sum_list (count_stale <$> elems).
Proof.
  induction elems as [|ti_elem rest IH]; intros j0; [done|].
  rewrite fmap_cons. simpl. by rewrite length_app, length_replicate, IH.
Qed.

Lemma rewrite_record_not_stale ti_elem :
  count_stale ti_elem = 0 -> rewrite_record ti_elem = ti_elem.
Proof.
  unfold count_stale, objects_of, rewrite_record.
  destruct ti_elem as [| | | | |d]; try done.
  destruct (d !! "status") as [[| | | | |s]|] eqn:Hd; try done.
  destruct (s !! "objects") as [[| | | |l|]|] eqn:Hs; try done. simpl.
  intros Hnone. transitivity (with_objects d s l); [|by apply with_objects_id].
  f_equal. clear Hs. induction l as [|obj l IH]; [done|].
  rewrite filter_cons in Hnone. rewrite fmap_cons.
  destruct (decide (is_stale obj = true)) as [E|E]; [done|].
  apply not_true_is_false in E. by rewrite (rewrite_obj_not_stale _ E), IH.
Qed.

(** X1: the returned list holds, for each record of the input in order, as
    many entries as the record had stale references, each of them the record
    with all its stale references rewritten. *)
Theorem returned_list_closed_form templateinstances st elems :
  perform_migrations templateinstances = Ok st ->
  ti_elems templateinstances = Ok elems ->
  deref st
  = concat ((fun ti_elem => replicate (count_stale ti_elem) (rewrite_record ti_elem))
            <$> elems).
Proof.
  intros Hp He. destruct (run_facts _ _ _ Hp He) as (_ & Hheap & Hout).
  unfold deref. rewrite Hheap, Hout. apply (deref_dirty_from elems []).
Qed.

Lemma returned_list_closed_form_witness :
  exists st,
    perform_migrations (mk_ti_list ex_mixed) = Ok st
    /\ deref st
       = concat ((fun ti_elem => replicate (count_stale ti_elem) (rewrite_record ti_elem))
                 <$> ex_mixed).
Proof.
  eexists. split; [run|].
  apply (returned_list_closed_form (mk_ti_list ex_mixed)); run.
Defined.

(** X2: every reference of the result is a position of the input list, and
    the references come in the order of the input: an earlier entry of the
    result never refers to a later record than a later entry does. *)
Theorem result_in_input_order templateinstances st elems :
  perform_migrations templateinstances = Ok st ->
  ti_elems templateinstances = Ok elems ->
  (forall n j, ti_to_be_migrated st !! n = Some j -> j < List.length elems)
  /\ (forall n m j j', n <= m ->
        ti_to_be_migrated st !! n = Some j -> ti_to_be_migrated st !! m = Some j' ->
        j <= j').
Proof.
  intros Hp He. destruct (run_facts _ _ _ Hp He) as (_ & _ & Hout). rewrite Hout. split.
  - intros n j Hn. apply list_elem_of_lookup_2, dirty_from_bounds in Hn. lia.
  - apply dirty_from_sorted.
Qed.

Lemma result_in_input_order_witness :
  exists st,
    perform_migrations (mk_ti_list ex_mixed) = Ok st
    /\ ti_to_be_migrated st = [1; 1; 2]
    /\ (forall n j, ti_to_be_migrated st !! n = Some j -> j < List.length ex_mixed).
Proof.
  eexists. split; [run|]. split; [run|].
  apply (result_in_input_order (mk_ti_list ex_mixed)); run.
Defined.

(** X3: after a call that returns, no record of the list holds a stale
    reference: every reference whose kind is a key of [transforms] carries
    the version stored there.  The same holds of every returned record. *)
Theorem no_stale_reference_left templateinstances st :
  perform_migrations templateinstances = Ok st ->
  forall ti_elem' i ref' k c,
    (ti_elem' ∈ heap st \/ ti_elem' ∈ deref st) ->
    ref_at ti_elem' i = Some ref' ->
    ref' !! "kind" = Some (VStr k) -> transforms !! k = Some c ->
    ref' !! "apiVersion" = Some (VStr c).
Proof.
  intros Hp ti_elem' i ref' k c Hin Hat Hk Hc.
  assert (Hheap : ti_elem' ∈ heap st).
  { destruct Hin as [|Hin]; [done|]. unfold deref in Hin.
    apply list_elem_of_omap in Hin as (j & _ & Hj). by eapply list_elem_of_lookup_2. }
  apply perform_migrations_inv in Hp as (elems & _ & _ & ->). simpl in Hheap.
  apply list_elem_of_fmap in Hheap as (ti_elem & -> & _).
  rewrite ref_at_rewrite_record in Hat.
  destruct (ref_at ti_elem i) as [ref|]; [|done]. simpl in Hat. simplify_eq.
  pose proof (stale_to_rewrite_ref ref) as Hnone. unfold stale_to in Hnone.
  rewrite Hk, Hc in Hnone.
  destruct (Py.eq_str (default VNone (rewrite_ref ref !! "apiVersion")) c) eqn:E; [|done].
  apply eq_str_true in E. destruct (rewrite_ref ref !! "apiVersion"); simpl in E; by subst.
Qed.

Lemma no_stale_reference_left_witness :
  exists st ti_elem' ref',
    perform_migrations (mk_ti_list ex_mixed) = Ok st
    /\ deref st !! 0 = Some ti_elem'
    /\ ref_at ti_elem' 1 = Some ref'
    /\ ref' !! "apiVersion" = Some (VStr "build.openshift.io/v1").
Proof.
  eexists. exists ex_migrated_two_stale. eexists.
  split; [run|]. split; [run|]. split; [run|].
  refine (no_stale_reference_left (mk_ti_list ex_mixed) _ _ ex_migrated_two_stale 1 _
            "Build" "build.openshift.io/v1" _ _ _ _); try run.
  right. vm_compute. left.
Defined.

(** X4: a call writes nothing but [apiVersion] keys of references.  Of a
    record every key but ["status"] is kept, of its status every key but
    ["objects"], and the list of entries keeps its length; of an entry every
    key but ["ref"] is kept, and of a reference every key but
    ["apiVersion"]. *)
Theorem writes_only_apiVersion templateinstances st elems j d :
  perform_migrations templateinstances = Ok st ->
  ti_elems templateinstances = Ok elems ->
  elems !! j = Some (VDict d) ->
  exists d',
    heap st !! j = Some (VDict d')
    /\ (forall k, k <> "status" -> d' !! k = d !! k)
    /\ (forall s, d !! "status" = Some (VDict s) ->
          exists s', d' !! "status" = Some (VDict s')
                     /\ forall k, k <> "objects" -> s' !! k = s !! k)
    /\ (forall l, objects_of (VDict d) = Some l ->
          exists l', objects_of (VDict d') = Some l'
                     /\ List.length l' = List.length l
                     /\ forall i o, l !! i = Some (VDict o) ->
                          exists o', l' !! i = Some (VDict o')
                                     /\ forall k, k <> "ref" -> o' !! k = o !! k)
    /\ (forall i ref, ref_at (VDict d) i = Some ref ->
          exists ref', ref_at (VDict d') i = Some ref'
                       /\ forall k, k <> "apiVersion" -> ref' !! k = ref !! k).
Proof.
  intros Hp He Hj. destruct (run_facts _ _ _ Hp He) as (_ & Hheap & _).
  destruct (rewrite_record_keys d) as (d' & Hd' & Hkeys).
  exists d'. rewrite Hheap, list_lookup_fmap, Hj. cbn [fmap option_fmap option_map].
  rewrite Hd'. split_and!; [done|done| | |].
  - intros s Hs. revert Hd'. unfold rewrite_record. rewrite Hs.
    destruct (s !! "objects") as [[| | | |l|]|] eqn:Hobj;
      try (intros [= <-]; exists s; by rewrite Hs).
    unfold with_objects. intros [= <-]. eexists. rewrite lookup_insert_eq.
    split; [done|]. intros k Hk. by rewrite lookup_insert_ne.
  - intros l Hl. rewrite <- Hd', objects_of_rewrite_record, Hl. simpl.
    eexists. split; [done|]. split; [by rewrite length_fmap|].
    intros i o Hi. rewrite list_lookup_fmap, Hi. simpl. unfold rewrite_obj.
    destruct (o !! "ref") as [[| | | | |ref]|]; try (by exists o).
    eexists. split; [done|]. intros k Hk. by rewrite lookup_insert_ne.
  - intros i ref Hat. rewrite <- Hd', ref_at_rewrite_record, Hat. simpl.
    eexists. split; [done|]. intros k Hk. unfold rewrite_ref.
    destruct (stale_to ref); [|done]. by rewrite lookup_insert_ne.
Qed.

(** X5: a record none of whose references is stale is the same object
    after the call as before, and is not in the result. *)
Theorem clean_record_unchanged templateinstances st elems j ti_elem :
  perform_migrations templateinstances = Ok st ->
  ti_elems templateinstances = Ok elems ->
  elems !! j = Some ti_elem ->
  (forall i ref, ref_at ti_elem i = Some ref -> ~ stale_ref ref) ->
  heap st !! j = Some ti_elem /\ (j ∉ ti_to_be_migrated st).
Proof.
  intros Hp He Hj Hclean. destruct (run_facts _ _ _ Hp He) as (_ & Hheap & Hout).
  assert (Hzero : count_stale ti_elem = 0).
  { destruct (count_stale ti_elem) eqn:E; [done|].
    assert (Hpos : 0 < count_stale ti_elem) by lia.
    apply count_stale_pos in Hpos as (i & ref & Hat & Hs). by destruct (Hclean i ref). }
  split.
  - rewrite Hheap, list_lookup_fmap, Hj. cbn [fmap option_fmap option_map].
    by rewrite rewrite_record_not_stale.
  - intros Hin%occurrences_pos. rewrite Hout, occurrences_dirty, Hj in Hin.
    simpl in Hin. lia.
Qed.

End MoreResult.

(** ** Which exception a call raises *)

Section MoreRaising.

Implicit Types (d s o ref : gmap string value) (l objs elems : list value).
Implicit Types (st : mstate) (obj ti_elem : value) (i j : nat).

Local Arguments rewrite_record : simpl never.
Local Arguments rewrite_obj : simpl never.
Local Arguments count_stale : simpl never.

Local Ltac run := vm_compute; reflexivity.

(** The outer loop after the accepted records [pre]. *)
Lemma migrate_elems_prefix pre : forall pre0 rest st,
  heap st = pre0 ++ pre ++ rest ->
  forallb record_ok pre = true ->
  migrate_elems (List.length pre0) (pre ++ rest) st
  = migrate_elems (List.length pre0 + List.length pre) rest
      (MState (pre0 ++ (rewrite_record <$> pre) ++ rest)
              (ti_to_be_migrated st ++ dirty_from (List.length pre0) pre)).
Proof.
  induction pre as [|ti_elem pre IH]; intros pre0 rest st Hh Hok; simpl.
  - rewrite Nat.add_0_r, app_nil_r. simpl in Hh. rewrite <- Hh. by destruct st.
  - apply andb_prop in Hok as [Hrec Hrest].
    rewrite (migrate_elem_ok _ _ _ Hrec) by (rewrite Hh; by apply list_lookup_middle).
    simpl. rewrite Hh.
    replace (<[List.length pre0 := rewrite_record ti_elem]> (pre0 ++ (ti_elem :: pre) ++ rest))
      with ((pre0 ++ [rewrite_record ti_elem]) ++ pre ++ rest)
      by (rewrite insert_app_r_alt, Nat.sub_diag by lia; simpl; by rewrite <- app_assoc).
    replace (S (List.length pre0)) with (List.length (pre0 ++ [rewrite_record ti_elem]))
      by (rewrite length_app; simpl; lia).
    rewrite IH by done. simpl. rewrite length_app. simpl.
    rewrite <- !app_assoc. simpl.
    by replace (List.length pre0 + 1 + List.length pre)
      with (List.length pre0 + S (List.length pre)) by lia.
Qed.

(** The inner loop after the accepted entries [opre]. *)
Lemma migrate_objs_prefix j d s opre : forall pre0 rest st,
  heap st !! j = Some (with_objects d s (pre0 ++ opre ++ rest)) ->
  forallb obj_ok opre = true ->
  exists st',
    migrate_objs j (List.length pre0) (opre ++ rest) st
    = migrate_objs j (List.length pre0 + List.length opre) rest st'.
Proof.
  induction opre as [|obj opre IH]; intros pre0 rest st Hj Hok; simpl.
  - exists st. by rewrite Nat.add_0_r.
  - apply andb_prop in Hok as [Hobj Hrest].
    rewrite (migrate_obj_ok j (List.length pre0) obj st d s (pre0 ++ (obj :: opre) ++ rest));
      try done; [|by apply list_lookup_middle]. simpl.
    assert (Hlt : j < List.length (heap st)) by (by eapply lookup_lt_Some).
    replace (<[List.length pre0 := rewrite_obj obj]> (pre0 ++ (obj :: opre) ++ rest))
      with ((pre0 ++ [rewrite_obj obj]) ++ opre ++ rest)
      by (rewrite insert_app_r_alt, Nat.sub_diag by lia; simpl; by rewrite <- app_assoc).
    replace (S (List.length pre0)) with (List.length (pre0 ++ [rewrite_obj obj]))
      by (rewrite length_app; simpl; lia).
    match goal with
    | |- context [migrate_objs _ _ (opre ++ rest) ?s1] =>
        destruct (IH (pre0 ++ [rewrite_obj obj]) rest s1) as [st' Hst'];
          [by simpl; rewrite list_lookup_insert_eq | done |]
    end.
    exists st'. rewrite Hst'. f_equal. rewrite length_app. simpl. lia.
Qed.

Lemma migrate_elem_list j d s l st :
  d !! "status" = Some (VDict s) -> s !! "objects" = Some (VList l) -> l <> [] ->
  migrate_elem j (VDict d) st = migrate_objs j 0 l st.
Proof.
  intros Hd Hs Hne. unfold migrate_elem. simpl. rewrite Hd. simpl. rewrite Hs. simpl.
  by destruct l.
Qed.

(** The call raises what the loop body raises on the first record it does
    not accept. *)
Lemma raises_at_first_bad_record templateinstances pre ti_elem post e :
  ti_elems templateinstances = Ok (pre ++ ti_elem :: post) ->
  forallb record_ok pre = true ->
  (forall j st, heap st !! j = Some ti_elem -> migrate_elem j ti_elem st = Raise e) ->
  perform_migrations templateinstances = Raise e.
Proof.
  intros He Hok Hbad. unfold perform_migrations, ti_elems in *.
  destruct (select_ti_list templateinstances) as [ti_list|e']; simpl in *; [|done].
  rewrite He. simpl.
  rewrite (migrate_elems_prefix pre [] (ti_elem :: post)) by done. simpl.
  rewrite Hbad; [done|]. simpl. apply list_lookup_middle. by rewrite length_fmap.
Qed.

(** X6: an input that is not a dict raises [AttributeError], and a
    [TemplateInstanceList] whose [items] is truthy but not a list (a number,
    [True], a string, a dict) raises [TypeError]. *)
Theorem malformed_input_raises :
  (forall templateinstances,
     (forall d, templateinstances <> VDict d) ->
     perform_migrations templateinstances = Raise AttributeError)
  /\ (forall d v,
        d !! "kind" = Some (VStr "TemplateInstanceList") ->
        d !! "items" = Some v -> Py.truthy v = true -> (forall l, v <> VList l) ->
        perform_migrations (VDict d) = Raise TypeError).
Proof.
  split.
  - intros ti Hnd. destruct ti as [| | | | |d]; try done. by destruct (Hnd d).
  - intros d v Hkind Hitems Htrue Hnl.
    unfold perform_migrations, select_ti_list. simpl. rewrite Hkind, Hitems. simpl.
    rewrite Htrue. destruct v as [|b|n|t|l|d']; simpl in *; try done.
    + destruct t as [|a t]; [done|]. done.
    + by destruct (Hnl l).
    + apply negb_true_iff, bool_decide_eq_false in Htrue.
      by destruct (map_to_list_nonempty d' Htrue) as (k & x & rest & ->).
Qed.

Lemma malformed_input_raises_witness :
  perform_migrations (VStr "TemplateInstanceList") = Raise AttributeError
  /\ perform_migrations (VDict ex_items_string) = Raise TypeError.
Proof.
  split.
  - apply (proj1 malformed_input_raises). intros d. discriminate.
  - apply (proj2 malformed_input_raises ex_items_string (VStr "abc")); try run.
    intros l. discriminate.
Defined.

(** X7: when the records before it are accepted, the first record that is
    not a dict makes the call raise [TypeError], the first one without a
    ["status"] key [KeyError('status')], and the first one whose status is
    not a dict [AttributeError]. *)
Theorem first_bad_record_raises templateinstances pre ti_elem post :
  ti_elems templateinstances = Ok (pre ++ ti_elem :: post) ->
  forallb record_ok pre = true ->
  ((forall d, ti_elem <> VDict d) ->
     perform_migrations templateinstances = Raise TypeError)
  /\ (forall d, ti_elem = VDict d -> d !! "status" = None ->
        perform_migrations templateinstances = Raise (KeyError (VStr "status")))
  /\ (forall d v, ti_elem = VDict d -> d !! "status" = Some v ->
        (forall s, v <> VDict s) ->
        perform_migrations templateinstances = Raise AttributeError).
Proof.
  intros He Hok. split_and!.
  - intros Hnd. apply (raises_at_first_bad_record _ _ _ _ _ He Hok). intros j st _.
    destruct ti_elem as [| | | | |d]; try done. by destruct (Hnd d).
  - intros d -> Hd. apply (raises_at_first_bad_record _ _ _ _ _ He Hok). intros j st _.
    unfold migrate_elem. simpl. by rewrite Hd.
  - intros d v -> Hd Hnd. apply (raises_at_first_bad_record _ _ _ _ _ He Hok).
    intros j st _. unfold migrate_elem. simpl. rewrite Hd. simpl.
    destruct v as [| | | | |s]; try done. by destruct (Hnd s).
Qed.

Lemma first_bad_record_raises_witness :
  perform_migrations (mk_ti_list [ex_two_stale; ex_no_status; ex_route_secret])
  = Raise (KeyError (VStr "status")).
Proof.
  refine (proj1 (proj2 (first_bad_record_raises
            (mk_ti_list [ex_two_stale; ex_no_status; ex_route_secret])
            [ex_two_stale] ex_no_status [ex_route_secret] _ _))
            (list_to_map [("metadata", dict [("name", VStr "ti")])]) _ _); run.
Defined.

(** X8: when the records and the entries before it are accepted, the first
    entry without a ["ref"] key makes the call raise [KeyError('ref')], the
    first one whose reference has no ["kind"] raises [KeyError('kind')], and
    the first one whose kind is a list or a dict raises [TypeError]. *)
Theorem first_bad_entry_raises templateinstances pre d s opre obj opost post :
  ti_elems templateinstances = Ok (pre ++ VDict d :: post) ->
  forallb record_ok pre = true ->
  d !! "status" = Some (VDict s) ->
  s !! "objects" = Some (VList (opre ++ obj :: opost)) ->
  forallb obj_ok opre = true ->
  (forall o, obj = VDict o -> o !! "ref" = None ->
     perform_migrations templateinstances = Raise (KeyError (VStr "ref")))
  /\ (forall o ref, obj = VDict o -> o !! "ref" = Some (VDict ref) ->
        ref !! "kind" = None ->
        perform_migrations templateinstances = Raise (KeyError (VStr "kind")))
  /\ (forall o ref v, obj = VDict o -> o !! "ref" = Some (VDict ref) ->
        ref !! "kind" = Some v ->
        ((exists l, v = VList l) \/ (exists d', v = VDict d')) ->
        perform_migrations templateinstances = Raise TypeError).
Proof.
  intros He Hok Hd Hs Hoks.
  assert (Hraise : forall e,
    (forall j i st, migrate_obj j i obj st = Raise e) ->
    perform_migrations templateinstances = Raise e).
  { intros e Hbad. apply (raises_at_first_bad_record _ _ _ _ _ He Hok). intros j st Hj.
    rewrite (migrate_elem_list j d s _ st Hd Hs) by (by destruct opre).
    rewrite <- (with_objects_id d s _ Hd Hs) in Hj.
    destruct (migrate_objs_prefix j d s opre [] (obj :: opost) st Hj Hoks) as [st' Hst'].
    simpl in Hst'. rewrite Hst'. simpl. by rewrite Hbad. }
  split_and!.
  - intros o -> Ho. apply Hraise. intros j i st. unfold migrate_obj. simpl. by rewrite Ho.
  - intros o ref -> Ho Hk. apply Hraise. intros j i st. unfold migrate_obj. simpl.
    rewrite Ho. simpl. by rewrite Hk.
  - intros o ref v -> Ho Hk Hv. apply Hraise. intros j i st. unfold migrate_obj. simpl.
    rewrite Ho. simpl. rewrite Hk. simpl. by destruct Hv as [[l ->] | [d' ->]].
Qed.

Lemma first_bad_entry_raises_witness :
  perform_migrations
    (mk_ti_list [ex_route_secret; mk_ti [mk_ref "Build" "v1"; ex_no_ref]])
  = Raise (KeyError (VStr "ref")).
Proof.
  refine (proj1 (first_bad_entry_raises
            (mk_ti_list [ex_route_secret; mk_ti [mk_ref "Build" "v1"; ex_no_ref]])
            [ex_route_secret]
            (list_to_map [("status", dict [("objects", VList [mk_ref "Build" "v1"; ex_no_ref])])])
            (list_to_map [("objects", VList [mk_ref "Build" "v1"; ex_no_ref])])
            [mk_ref "Build" "v1"] ex_no_ref [] [] _ _ _ _ _)
            (list_to_map [("name", VStr "x")]) _ _); run.
Defined.

End MoreRaising.

(** ** Further properties of the module run *)

Section MoreRun.

Import Exec.

Implicit Types (c : client) (st : mstate) (tis : list value).

Local Arguments rewrite_record : simpl never.
Local Arguments count_stale : simpl never.

Local Ltac run := vm_compute; reflexivity.

Lemma writes_only_apiVersion_witness :
  exists st d',
    perform_migrations (mk_ti_list [ex_named "ti" [mk_ref "Route" "v1"]]) = Ok st
    /\ heap st !! 0 = Some (VDict d')
    /\ d' !! "metadata" = Some (dict [("name", VStr "ti")]).
Proof.
  eexists.
  destruct (writes_only_apiVersion
              (mk_ti_list [ex_named "ti" [mk_ref "Route" "v1"]]) _
              [ex_named "ti" [mk_ref "Route" "v1"]] 0
              (list_to_map [("metadata", dict [("name", VStr "ti")]);
                            ("status", dict [("objects", VList [mk_ref "Route" "v1"])])])
              ltac:(run) ltac:(run) ltac:(run))
    as (d' & Hheap & Hkeys & _).
  exists d'. split; [reflexivity|]. split; [exact Hheap|].
  rewrite (Hkeys "metadata") by discriminate. run.
Defined.

Lemma clean_record_unchanged_witness :
  exists st,
    perform_migrations (mk_ti_list ex_mixed) = Ok st
    /\ heap st !! 0 = Some ex_migrated_route_secret
    /\ (0 ∉ ti_to_be_migrated st).
Proof.
  eexists. split; [run|].
  apply (clean_record_unchanged (mk_ti_list ex_mixed) _ ex_mixed 0); try run.
  intros i ref Hat (k & c & Hk & Hc & Hv).
  destruct i as [|[|i]]; vm_compute in Hat; try discriminate;
    injection Hat as <-; vm_compute in Hk; injection Hk as <-;
    vm_compute in Hc; try discriminate; injection Hc as <-; by apply Hv.
Defined.

(** The patch loop always ends after patching an initial part of its list. *)
Lemma patch_all_shape c tis : forall n trace result,
  exists k, k <= List.length tis
    /\ fst (patch_all c n tis trace result) = trace ++ (EvPatch <$> take k tis).
Proof.
  induction tis as [|t rest IH]; intros n trace result; simpl.
  - exists 0. by rewrite app_nil_r.
  - destruct (patch_template_instance c n t) as [o|r]; simpl.
    + exists 1. split; [lia|]. simpl. by rewrite ?take_0.
    + destruct (IH (S n) (trace ++ [EvPatch t]) (result ++ [r])) as (k & Hk & ->).
      exists (S k). split; [lia|]. by rewrite <- app_assoc.
Qed.

(** The patch loop reports a change whenever it exits normally. *)
Lemma patch_all_changed c tis : forall n trace result changed result',
  snd (patch_all c n tis trace result) = ExitJson changed result' -> changed = true.
Proof.
  induction tis as [|t rest IH]; intros n trace result changed result'; simpl.
  - by intros [= <- _].
  - destruct (patch_template_instance c n t) as [o|r] eqn:E; simpl; [|by apply IH].
    unfold patch_template_instance in E.
    destruct (status_patch c n t); [|done].
    destruct (metadata <- Py.getitem t "metadata" ;; Py.getitem metadata "name");
      by intros ->.
Qed.

(** The patch loop stops at the first document the cluster refuses. *)
Lemma patch_all_fail c tis : forall n trace result k t o,
  tis !! k = Some t ->
  (forall m t', m < k -> tis !! m = Some t' -> exists r, status_patch c (n + m) t' = inr r) ->
  patch_template_instance c (n + k) t = inl o ->
  patch_all c n tis trace result = (trace ++ (EvPatch <$> take (S k) tis), o).
Proof.
  induction tis as [|t0 rest IH]; intros n trace result k t o Hk Hbefore Hfail; [done|].
  destruct k as [|k]; simpl in *.
  - simplify_eq. rewrite Nat.add_0_r in Hfail. rewrite Hfail. by rewrite ?take_0.
  - destruct (Hbefore 0 t0) as [r Hr]; [lia|done|]. rewrite Nat.add_0_r in Hr.
    unfold patch_template_instance at 1. rewrite Hr.
    rewrite (IH (S n) _ _ k t o Hk).
    + by rewrite <- app_assoc.
    + intros m t' Hm Ht'. replace (S n + m) with (n + S m) by lia.
      apply Hbefore; [lia|done].
    + by replace (S n + k) with (n + S k) by lia.
Qed.

(** X9: in check mode the module makes exactly one call to the cluster, the
    fetch; it never patches, whatever the cluster returns. *)
Theorem check_mode_only_fetches c namespace :
  fst (execute_module c namespace true)
  = [EvGet (if namespace_given namespace then namespace else None)].
Proof.
  unfold execute_module. destruct (namespace_given namespace) eqn:Hns.
  - destruct namespace as [ns|]; [|done]. simpl.
    by destruct (resource_get c (Some ns)).
  - destruct (resource_get c None) as [exc|ti]; [done|].
    destruct (perform_migrations ti) as [st|e]; [|done].
    by destruct (ti_to_be_migrated st).
Qed.

(** X10: without a namespace every run is one fetch followed by patches of
    an initial part of the migrated list, in the order of the list: no
    document outside the list is patched, none is skipped and nothing is
    fetched again. *)
Theorem patches_follow_migrated_list c namespace check_mode templateinstances st :
  namespace_given namespace = false ->
  resource_get c None = inr templateinstances ->
  perform_migrations templateinstances = Ok st ->
  exists k, k <= List.length (deref st)
    /\ fst (execute_module c namespace check_mode)
       = EvGet None :: (EvPatch <$> take k (deref st)).
Proof.
  intros Hns Hget Hp. unfold execute_module. rewrite Hns, Hget, Hp.
  destruct (ti_to_be_migrated st) as [|j out].
  - exists 0. split; [lia|]. by rewrite take_0.
  - destruct check_mode.
    + exists 0. split; [lia|]. by rewrite take_0.
    + destruct (patch_all_shape c (deref st) 0 [EvGet None] []) as (k & Hk & ->).
      by exists k.
Qed.

Lemma patches_follow_migrated_list_witness :
  exists st k,
    perform_migrations (mk_ti_list ex_mixed) = Ok st
    /\ k <= List.length (deref st)
    /\ fst (execute_module (ex_failing_client (mk_ti_list ex_mixed) 1) None false)
       = EvGet None :: (EvPatch <$> take k (deref st)).
Proof.
  eexists.
  destruct (patches_follow_migrated_list
              (ex_failing_client (mk_ti_list ex_mixed) 1) None false
              (mk_ti_list ex_mixed) _ eq_refl eq_refl ltac:(run))
    as (k & Hk & Htrace).
  exists k. split; [reflexivity|]. split; [exact Hk | exact Htrace].
Defined.

(** X11: when the cluster refuses a patch, the module stops there: the
    documents before it were patched, none after it is, and the module fails
    with the name of the refused record, or with an uncaught
    [KeyError('metadata')] when that record has no ["metadata"] key. *)
Theorem first_patch_failure_aborts c namespace templateinstances st k t exc :
  namespace_given namespace = false ->
  resource_get c None = inr templateinstances ->
  perform_migrations templateinstances = Ok st ->
  deref st !! k = Some t ->
  (forall m t', m < k -> deref st !! m = Some t' -> exists r, status_patch c m t' = inr r) ->
  status_patch c k t = inl exc ->
  fst (execute_module c namespace false) = EvGet None :: (EvPatch <$> take (S k) (deref st))
  /\ (forall d metadata name,
        t = VDict d -> d !! "metadata" = Some (VDict metadata) ->
        metadata !! "name" = Some name ->
        snd (execute_module c namespace false) = FailJson (FailedToMigrate name exc))
  /\ (forall d,
        t = VDict d -> d !! "metadata" = None ->
        snd (execute_module c namespace false) = Uncaught (KeyError (VStr "metadata"))).
Proof.
  intros Hns Hget Hp Hk Hbefore Hfail. unfold execute_module. rewrite Hns, Hget, Hp.
  destruct (ti_to_be_migrated st) as [|j out] eqn:Hout.
  { unfold deref in Hk. by rewrite Hout in Hk. }
  assert (Hrun : forall o, patch_template_instance c (0 + k) t = inl o ->
    patch_all c 0 (deref st) [EvGet None] []
    = (EvGet None :: (EvPatch <$> take (S k) (deref st)), o)).
  { intros o Ho. by apply (patch_all_fail c (deref st) 0 [EvGet None] [] k t o). }
  split_and!.
  - destruct (patch_template_instance c (0 + k) t) as [o|r] eqn:E.
    + by rewrite (Hrun o).
    + unfold patch_template_instance in E. simpl in E. rewrite Hfail in E.
      destruct (bind _ _) in E; discriminate.
  - intros d metadata name -> Hm Hn. rewrite (Hrun (FailJson (FailedToMigrate name exc)));
      [done|]. unfold patch_template_instance. simpl. rewrite Hfail. simpl.
    rewrite Hm. simpl. by rewrite Hn.
  - intros d -> Hm. rewrite (Hrun (Uncaught (KeyError (VStr "metadata")))); [done|].
    unfold patch_template_instance. simpl. rewrite Hfail. simpl. by rewrite Hm.
Qed.

Lemma first_patch_failure_aborts_witness :
  exists st,
    perform_migrations
      (mk_ti_list [ex_named "a" [mk_ref "Route" "v1"]; ex_named "b" [mk_ref "Build" "v1"];
                   ex_named "c" [mk_ref "Route" "v1"]]) = Ok st
    /\ fst (execute_module
              (ex_failing_client
                 (mk_ti_list [ex_named "a" [mk_ref "Route" "v1"];
                              ex_named "b" [mk_ref "Build" "v1"];
                              ex_named "c" [mk_ref "Route" "v1"]]) 1) None false)
       = EvGet None :: (EvPatch <$> take 2 (deref st)).
Proof.
  eexists. split; [run|].
  refine (proj1 (first_patch_failure_aborts
            (ex_failing_client
               (mk_ti_list [ex_named "a" [mk_ref "Route" "v1"];
                            ex_named "b" [mk_ref "Build" "v1"];
                            ex_named "c" [mk_ref "Route" "v1"]]) 1) None
            (mk_ti_list [ex_named "a" [mk_ref "Route" "v1"];
                         ex_named "b" [mk_ref "Build" "v1"];
                         ex_named "c" [mk_ref "Route" "v1"]]) _ 1
            (ex_named "b" [mk_ref "Build" "build.openshift.io/v1"])
            (OtherError "conflict") eq_refl eq_refl _ _ _ _)); try run.
  intros m t' Hm _. exists t'. destruct m; [reflexivity | lia].
Defined.

(** X12: when every patch succeeds, the number of patch calls is the number
    of stale references in the fetched list, not the number of records. *)
Theorem one_patch_per_stale_reference c namespace templateinstances st elems
    (f : nat -> value -> value) :
  namespace_given namespace = false ->
  resource_get c None = inr templateinstances ->
  perform_migrations templateinstances = Ok st ->
  ti_elems templateinstances = Ok elems ->
  (forall k t, deref st !! k = Some t -> status_patch c k t = inr (f k t)) ->
  List.length (filter (fun e => is_patch e = true) (fst (execute_module c namespace false)))
  = sum_list (count_stale <$> elems).
Proof.
  intros Hns Hget Hp He Hall. unfold execute_module. rewrite Hns, Hget, Hp.
  pose proof (deref_length _ _ Hp) as Hlen.
  destruct (run_facts _ _ _ Hp He) as (_ & _ & Hout).
  assert (Hsum : List.length (deref st) = sum_list (count_stale <$> elems))
    by (rewrite Hlen, Hout; apply length_dirty_from).
  rewrite <- Hsum.
  assert (Hpatches : forall tis,
    List.length (filter (fun e => is_patch e = true) (EvPatch <$> tis)) = List.length tis).
  { intros tis. induction tis as [|t tis IH]; [done|].
    rewrite fmap_cons, filter_cons_True by done. simpl. by rewrite IH. }
  destruct (ti_to_be_migrated st) as [|j out] eqn:E.
  - simpl in Hlen. by rewrite Hlen.
  - rewrite (patch_all_ok c f) by done. simpl.
    rewrite filter_cons_False by done. apply Hpatches.
Qed.

Lemma one_patch_per_stale_reference_witness :
  List.length (filter (fun e => is_patch e = true)
                 (fst (execute_module (ex_client (mk_ti_list ex_mixed)) None false)))
  = sum_list (count_stale <$> ex_mixed).
Proof.
  apply (one_patch_per_stale_reference (ex_client (mk_ti_list ex_mixed)) None
           (mk_ti_list ex_mixed) (MState (rewrite_record <$> ex_mixed) (dirty_from 0 ex_mixed))
           ex_mixed (fun _ ti => ti)); try run.
Defined.

(** X13: without a namespace, a run that exits normally reports
    [changed=True] exactly when some record of the fetched list holds a
    stale reference, in check mode and outside it. *)
Theorem changed_iff_stale_reference c namespace check_mode templateinstances elems
    changed result :
  namespace_given namespace = false ->
  resource_get c None = inr templateinstances ->
  ti_elems templateinstances = Ok elems ->
  snd (execute_module c namespace check_mode) = ExitJson changed result ->
  changed = true
  <-> exists j ti_elem i ref,
        elems !! j = Some ti_elem /\ ref_at ti_elem i = Some ref /\ stale_ref ref.
Proof.
  intros Hns Hget He. unfold execute_module. rewrite Hns, Hget.
  destruct (perform_migrations templateinstances) as [st|e] eqn:Hp; [|done].
  destruct (run_facts _ _ _ Hp He) as (_ & _ & Hout).
  assert (Hsome : forall j out, ti_to_be_migrated st = j :: out ->
    exists j ti_elem i ref,
      elems !! j = Some ti_elem /\ ref_at ti_elem i = Some ref /\ stale_ref ref).
  { intros j out E. exists j. apply elem_of_dirty. rewrite <- Hout, E. left. }
  destruct (ti_to_be_migrated st) as [|j out] eqn:E.
  - simpl. intros [= <- _]. split; [done|].
    intros (j & Hin). apply elem_of_dirty in Hin. rewrite <- Hout in Hin.
    by apply elem_of_nil in Hin.
  - destruct check_mode.
    + simpl. intros [= <- _]. split; [|done]. intros _. by eapply Hsome.
    + intros Hexit%patch_all_changed. split; [|done]. intros _. by eapply Hsome.
Qed.

Lemma changed_iff_stale_reference_witness :
  true = true
  <-> exists j ti_elem i ref,
        ex_mixed !! j = Some ti_elem /\ ref_at ti_elem i = Some ref /\ stale_ref ref.
Proof.
  apply (changed_iff_stale_reference (ex_client (mk_ti_list ex_mixed)) None true
           (mk_ti_list ex_mixed) ex_mixed true
           (deref (MState (rewrite_record <$> ex_mixed) (dirty_from 0 ex_mixed))));
    run.
Defined.

(** A second call on the input as a first call left it. *)
Lemma perform_migrations_applied templateinstances st :
  perform_migrations templateinstances = Ok st ->
  perform_migrations (migrate_applied templateinstances st) = Ok (MState (heap st) []).
Proof.
  intros Hp. pose proof (ti_elems_applied _ _ Hp) as He2.
  apply perform_migrations_inv in Hp as (elems & He & Hok & ->). simpl in *.
  rewrite (perform_migrations_ok _ _ He2 (record_ok_rewritten _ Hok)).
  rewrite dirty_from_rewritten. do 2 f_equal.
  rewrite <- list_fmap_compose. apply list_fmap_ext. intros ? r _. simpl.
  apply rewrite_record_idem.
Qed.

(** X14: a run against a cluster that serves the list as a first call left
    it reports no change, returns an empty result and patches nothing. *)
Theorem second_run_reports_no_change c namespace check_mode templateinstances st :
  namespace_given namespace = false ->
  perform_migrations templateinstances = Ok st ->
  resource_get c None = inr (migrate_applied templateinstances st) ->
  execute_module c namespace check_mode = ([EvGet None], ExitJson false []).
Proof.
  intros Hns Hp Hget. unfold execute_module.
  by rewrite Hns, Hget, (perform_migrations_applied _ _ Hp).
Qed.

Lemma second_run_reports_no_change_witness :
  exists st,
    perform_migrations (mk_ti_list ex_mixed) = Ok st
    /\ execute_module (ex_client (migrate_applied (mk_ti_list ex_mixed) st)) None false
       = ([EvGet None], ExitJson false []).
Proof.
  exists (MState (rewrite_record <$> ex_mixed) (dirty_from 0 ex_mixed)).
  split; [run|].
  apply (second_run_reports_no_change _ None false (mk_ti_list ex_mixed)
           (MState (rewrite_record <$> ex_mixed) (dirty_from 0 ex_mixed))); run.
Defined.

End MoreRun.
